(** * The Gurobi callback wrapper of andres::ilp, embedded and verified

    Source: [include/andres/ilp/gurobi-callback.hxx].  The header wraps the
    Gurobi C++ API in a class [Gurobi] (the solver session) and an abstract
    class [Gurobi::Callback] (the lazy-constraint / heuristic protocol).

    The solver itself is a black box.  It is modelled by the calls the
    wrapper issues to it (a chronological log) and by an oracle that answers
    them; the wrapper's member functions are embedded as computations in a
    small state-and-exception monad that also knows undefined behaviour.

    Embedded are the constructor, [setVerbosity], [setPreSolver],
    [addVariables], [setBranchPrio], [setCallback], [optimize], [objective],
    [bound], [gap], [label], [addConstraint], [setStart] of [Gurobi] and all
    members of [Gurobi::Callback].  The remaining setters and getters of
    [Gurobi] forward one parameter to the solver each and are left out. *)

From Stdlib Require Import ZArith List String Bool Lia.
From Stdlib Require Import DecimalString.
From Stdlib Require DecimalPos DecimalZ.
From Stdlib Require Import SpecFloat.
Import ListNotations.
Local Open Scope Z_scope.

Set Implicit Arguments.

(** ** IEEE binary64 values ([double]) *)

Module Double.

Definition prec : Z := 53.
Definition emax : Z := 1024.

(** A [double] is a binary64 datum: zero, infinity, NaN or a finite number
    [(-1)^s * m * 2^e]. *)
Definition double : Type := spec_float.

(** [std::numeric_limits<double>::infinity()] *)
Definition infinity : double := S754_infinity false.

(** unary minus *)
Definition neg (x : double) : double := SFopp x.

(** [x == y] and [x != y] on doubles (IEEE: a NaN differs from everything,
    the two zeros are equal). *)
Definition eqb (x y : double) : bool := SFeqb x y.
Definition neqb (x y : double) : bool := negb (SFeqb x y).
Definition ltb (x y : double) : bool := SFltb x y.

Definition add (x y : double) : double := SFadd prec emax x y.
Definition sub (x y : double) : double := SFsub prec emax x y.
Definition div (x y : double) : double := SFdiv prec emax x y.

(** [std::fabs] *)
Definition fabs (x : double) : double := SFabs x.

(** an integer literal or integer value converted to [double] *)
Definition of_Z (z : Z) : double := binary_normalize prec emax z 0 false.

Definition zero : double := S754_zero false.
Definition one : double := of_Z 1.

(** "is negative infinity" / "is positive infinity", structurally. *)
Definition is_neg_infinity (x : double) : bool :=
  match x with S754_infinity true => true | _ => false end.
Definition is_pos_infinity (x : double) : bool :=
  match x with S754_infinity false => true | _ => false end.

End Double.

Import Double.

(** ** Exceptions and outcomes *)

(** The exception objects that travel through the wrapper: the solver's
    [GRBException] (error code and message), [std::runtime_error] (thrown by
    the catch clause of [Callback::callback]) and any other exception a
    client's override may throw. *)
Inductive exn : Type :=
| GRBException (errorCode : Z) (message : string)
| runtime_error (what : string)
| other_exception (what : string).

(** What running a member function on a state [S] produces: a normal return,
    an exception leaving the function (the state keeps the effects made
    before the throw), or undefined behaviour (an access outside an array or
    through a null pointer). *)
Inductive outcome (S A : Type) : Type :=
| Normal (a : A) (s : S)
| Throw (e : exn) (s : S)
| Undefined.

Arguments Normal {S A} a s.
Arguments Throw {S A} e s.
Arguments Undefined {S A}.

Definition M (S A : Type) : Type := S -> outcome S A.

Definition ret {S A} (a : A) : M S A := fun s => Normal a s.

Definition bind {S A B} (m : M S A) (k : A -> M S B) : M S B :=
  fun s =>
    match m s with
    | Normal a s' => k a s'
    | Throw e s' => Throw e s'
    | Undefined => Undefined
    end.

Definition throw {S A} (e : exn) : M S A := fun s => Throw e s.
Definition undefined {S A} : M S A := fun _ => Undefined.
Definition gets {S A} (f : S -> A) : M S A := fun s => Normal (f s) s.
Definition modify {S} (f : S -> S) : M S unit := fun s => Normal tt (f s).

(** [try m catch (e) { handler e }] *)
Definition try_catch {S A} (m : M S A) (handler : exn -> M S A) : M S A :=
  fun s =>
    match m s with
    | Normal a s' => Normal a s'
    | Throw e s' => handler e s'
    | Undefined => Undefined
    end.

(** Run a computation on a component [I] of the state [O]. *)
Definition zoom {O I A} (proj : O -> I) (upd : I -> O -> O) (m : M I A) : M O A :=
  fun o =>
    match m (proj o) with
    | Normal a i => Normal a (upd i o)
    | Throw e i => Throw e (upd i o)
    | Undefined => Undefined
    end.

Declare Scope monad_scope.
Delimit Scope monad_scope with monad.
Notation "x <- c ;; k" := (bind c (fun x => k))
  (at level 61, c at next level, right associativity) : monad_scope.
Notation "c ;; k" := (bind c (fun _ => k))
  (at level 61, right associativity) : monad_scope.
Local Open Scope monad_scope.

(** ** Integer conversions *)

(** [size_t] is 64 bits wide, [int] 32 bits. *)
Definition size_t_modulus : Z := 2 ^ 64.

(** [static_cast<size_t>(i)] *)
Definition to_size_t (i : Z) : Z := i mod size_t_modulus.

(** [size_t] passed where the solver takes an [int]: two's-complement
    narrowing. *)
Definition int_of_size_t (n : Z) : Z := (n + 2 ^ 31) mod 2 ^ 32 - 2 ^ 31.

(** [std::to_string(int)] *)
Definition to_string (i : Z) : string := NilZero.string_of_int (Z.to_int i).

(** ** The solver interface

    Only the part of the Gurobi API the header uses is named.  The header
    [gurobi_c++.h] is not part of the repository: the enumerators below are
    the macros and classes of that header the wrapper mentions. *)

Inductive IntParam : Type :=
| GRB_IntParam_OutputFlag
| GRB_IntParam_Disconnected
| GRB_IntParam_Presolve
| GRB_IntParam_PreDual
| GRB_IntParam_PrePasses
| GRB_IntParam_LazyConstraints.

Inductive DoubleAttr : Type :=
| GRB_DoubleAttr_ObjVal
| GRB_DoubleAttr_ObjBound
| GRB_DoubleAttr_X
| GRB_DoubleAttr_Start.

Inductive IntAttr : Type :=
| GRB_IntAttr_BranchPriority.

Inductive VType : Type :=
| GRB_CONTINUOUS
| GRB_BINARY
| GRB_INTEGER.

Inductive Sense : Type :=
| GRB_LESS_EQUAL
| GRB_GREATER_EQUAL
| GRB_EQUAL.

(** A variable handle [GRBVar] is identified with the position of the
    variable in the solver's model (the handle [GRBModel::getVar(i)]
    returns). *)
Definition GRBVar : Type := nat.

(** [GRBLinExpr]: a constant plus a list of terms [coefficient * variable]. *)
Record GRBLinExpr : Type := {
  constant : double;
  terms : list (double * GRBVar)
}.

(** [GRBLinExpr expression;] *)
Definition GRBLinExpr_empty : GRBLinExpr := {| constant := zero; terms := [] |}.

(** [GRBLinExpr exact(c);] and the implicit conversion of a [double]. *)
Definition GRBLinExpr_const (c : double) : GRBLinExpr :=
  {| constant := c; terms := [] |}.

(** [expression += c * v] *)
Definition add_term (expression : GRBLinExpr) (c : double) (v : GRBVar) : GRBLinExpr :=
  {| constant := constant expression; terms := terms expression ++ [(c, v)] |}.

(** [GRBLinExpr::addTerms(coeff, vars, cnt)] reads [cnt] entries of both
    arrays; [None] when an array is shorter than that. *)
Fixpoint addTerms (expression : GRBLinExpr) (coeff : list double)
    (vars : list GRBVar) (cnt : nat) : option GRBLinExpr :=
  match cnt with
  | O => Some expression
  | S cnt' =>
      match coeff, vars with
      | c :: coeff', v :: vars' => addTerms (add_term expression c v) coeff' vars' cnt'
      | _, _ => None
      end
  end.

(** [GRBTempConstr], the value of [lhs == rhs], [lhs <= rhs]. *)
Record GRBTempConstr : Type := {
  tc_lhs : GRBLinExpr;
  tc_sense : Sense;
  tc_rhs : GRBLinExpr
}.

(** The calls that change the solver, as the wrapper issues them. *)
Inductive call : Type :=
| Env_set (p : IntParam) (v : Z)
| Model_addVars (count : Z) (type : VType)
| Model_update
| Model_setObjective (e : GRBLinExpr)
| Model_addConstr (lhs : GRBLinExpr) (sense : Sense) (rhs : GRBLinExpr)
| Model_setCallback
| Model_optimize
| Var_set_double (v : GRBVar) (a : DoubleAttr) (x : double)
| Var_set_int (v : GRBVar) (a : IntAttr) (x : Z)
| Cb_addLazy (tc : GRBTempConstr)
| Cb_setSolution (v : GRBVar) (x : double).

(** The calls that only read. *)
Inductive query : Type :=
| Model_get (a : DoubleAttr)
| Var_get (v : GRBVar) (a : DoubleAttr)
| Model_getVar (i : Z).

(** The black box.  Given the calls issued so far, it accepts a call or
    rejects it with an error code and message (thrown as [GRBException]);
    a query is refused the same way or answered with a value. *)
Record Solver : Type := {
  rejects : list call -> call -> option (Z * string);
  refuses : list call -> query -> option (Z * string);
  value : list call -> query -> double
}.

(** [GRBModel]: the number of variables it holds and the log of calls. *)
Record GRBModel : Type := {
  numVars : nat;
  log : list call
}.

(** ** The session object [Gurobi]

    [gurobiVariables_] is a [GRBVar*]: null ([None]) or the array returned by
    a call of [GRBModel::addVars]. *)
Record Gurobi : Type := {
  gurobiModel_ : GRBModel;
  gurobiVariables_ : option (list GRBVar);
  gurobiObjective_ : GRBLinExpr;
  nVariables_ : Z
}.

Definition set_gurobiModel_ (m : GRBModel) (g : Gurobi) : Gurobi :=
  {| gurobiModel_ := m; gurobiVariables_ := gurobiVariables_ g;
     gurobiObjective_ := gurobiObjective_ g; nVariables_ := nVariables_ g |}.

Definition set_gurobiVariables_ (v : option (list GRBVar)) (g : Gurobi) : Gurobi :=
  {| gurobiModel_ := gurobiModel_ g; gurobiVariables_ := v;
     gurobiObjective_ := gurobiObjective_ g; nVariables_ := nVariables_ g |}.

Definition set_gurobiObjective_ (e : GRBLinExpr) (g : Gurobi) : Gurobi :=
  {| gurobiModel_ := gurobiModel_ g; gurobiVariables_ := gurobiVariables_ g;
     gurobiObjective_ := e; nVariables_ := nVariables_ g |}.

Definition set_nVariables_ (n : Z) (g : Gurobi) : Gurobi :=
  {| gurobiModel_ := gurobiModel_ g; gurobiVariables_ := gurobiVariables_ g;
     gurobiObjective_ := gurobiObjective_ g; nVariables_ := n |}.

(** The default member initialisers: [gurobiModel_] a model without
    variables, [gurobiVariables_ { nullptr }], [nVariables_ { 0 }]. *)
Definition Gurobi_members : Gurobi :=
  {| gurobiModel_ := {| numVars := 0; log := [] |};
     gurobiVariables_ := None;
     gurobiObjective_ := GRBLinExpr_empty;
     nVariables_ := 0 |}.

Inductive PreSolver : Type :=
| PRE_SOLVER_AUTO
| PRE_SOLVER_PRIMAL
| PRE_SOLVER_DUAL
| PRE_SOLVER_NONE.

Section Session.

Variable solver : Solver.

(** *** Solver calls *)

(** A call that changes the solver: it is entered in the log, accepted or
    not, and a rejection is thrown as [GRBException]. *)
Definition issue (c : call) : M GRBModel unit :=
  fun m =>
    let m' := {| numVars := numVars m; log := log m ++ [c] |} in
    match rejects solver (log m) c with
    | Some (code, msg) => Throw (GRBException code msg) m'
    | None => Normal tt m'
    end.

(** A call that only reads: answered from the calls made so far. *)
Definition ask (q : query) : M GRBModel double :=
  fun m =>
    match refuses solver (log m) q with
    | Some (code, msg) => Throw (GRBException code msg) m
    | None => Normal (value solver (log m) q) m
    end.

(** [GRBModel::addVars(count, type)]: [count] new variables, whose handles
    are returned in a fresh array. *)
Definition GRBModel_addVars (count : Z) (type : VType) : M GRBModel (list GRBVar) :=
  issue (Model_addVars count type) ;;
  first <- gets numVars ;;
  modify (fun m => {| numVars := (first + Z.to_nat count)%nat; log := log m |}) ;;
  ret (seq first (Z.to_nat count)).

(** [GRBModel::getVar(i)] *)
Definition GRBModel_getVar (i : Z) : M GRBModel GRBVar :=
  ask (Model_getVar i) ;;
  ret (Z.to_nat i).

Definition on_model {A} (m : M GRBModel A) : M Gurobi A :=
  zoom gurobiModel_ set_gurobiModel_ m.

(** [gurobiModel_->getEnv().set(p, v)] *)
Definition env_set (p : IntParam) (v : Z) : M Gurobi unit :=
  on_model (issue (Env_set p v)).

(** [gurobiVariables_[i]] for a [size_t] index [i]. *)
Definition var_at (i : Z) : M Gurobi GRBVar :=
  fun g =>
    match gurobiVariables_ g with
    | None => Undefined
    | Some vars =>
        if i <? 0 then Undefined
        else match nth_error vars (Z.to_nat i) with
             | Some v => Normal v g
             | None => Undefined
             end
    end.

(** *** Member functions of [Gurobi] *)

(** [Gurobi::setVerbosity], source lines 217-227. *)
Definition setVerbosity (verbosity : bool) : M Gurobi unit :=
  if verbosity then env_set GRB_IntParam_OutputFlag 1
  else env_set GRB_IntParam_OutputFlag 0.

(** [Gurobi::Gurobi], source lines 146-155: the constructor body, run on
    [Gurobi_members]; the creation of environment and model is taken to
    succeed. *)
Definition Gurobi_ctor : M Gurobi unit :=
  setVerbosity false ;;
  env_set GRB_IntParam_Disconnected 2.

(** [Gurobi::setPreSolver], source lines 229-260; [PRE_SOLVER_NONE]
    returns from inside the switch. *)
Definition setPreSolver (preSolver : PreSolver) (passes : Z) : M Gurobi unit :=
  match preSolver with
  | PRE_SOLVER_NONE =>
      env_set GRB_IntParam_Presolve 0
  | PRE_SOLVER_AUTO =>
      env_set GRB_IntParam_PreDual (-1) ;;
      env_set GRB_IntParam_PrePasses passes
  | PRE_SOLVER_PRIMAL =>
      env_set GRB_IntParam_PreDual 0 ;;
      env_set GRB_IntParam_PrePasses passes
  | PRE_SOLVER_DUAL =>
      env_set GRB_IntParam_PreDual 1 ;;
      env_set GRB_IntParam_PrePasses passes
  end.

(** [setPreSolver(preSolver)]: the declaration (source line 119) gives
    [passes] the default argument [-1]. *)
Definition setPreSolver_default (preSolver : PreSolver) : M Gurobi unit :=
  setPreSolver preSolver (-1).

(** [Gurobi::addVariables], source lines 283-293.  [numberOfVariables] is
    a [size_t]; [coefficients] holds what can be read through the pointer. *)
Definition addVariables (numberOfVariables : Z) (coefficients : list double)
  : M Gurobi unit :=
  modify (fun g => set_nVariables_ (to_size_t (nVariables_ g + numberOfVariables)) g) ;;
  vars <- on_model (GRBModel_addVars (int_of_size_t numberOfVariables) GRB_BINARY) ;;
  modify (set_gurobiVariables_ (Some vars)) ;;
  on_model (issue Model_update) ;;
  objective <- gets gurobiObjective_ ;;
  match addTerms objective coefficients vars
          (Z.to_nat (int_of_size_t numberOfVariables)) with
  | None => undefined
  | Some objective' =>
      modify (set_gurobiObjective_ objective') ;;
      on_model (issue (Model_setObjective objective'))
  end.

(** [Gurobi::setBranchPrio], source lines 295-301. *)
Definition setBranchPrio (variableIndex : Z) (branchPriority : Z) : M Gurobi unit :=
  v <- var_at variableIndex ;;
  on_model (issue (Var_set_int v GRB_IntAttr_BranchPriority branchPriority)).

(** [Gurobi::setCallback], source lines 303-309. *)
Definition setCallback : M Gurobi unit :=
  env_set GRB_IntParam_LazyConstraints 1 ;;
  on_model (issue Model_setCallback).

(** [Gurobi::optimize], [Gurobi::objective], [Gurobi::bound], source lines
    311-324. *)
Definition optimize : M Gurobi unit :=
  on_model (issue Model_optimize).

Definition objective : M Gurobi double :=
  on_model (ask (Model_get GRB_DoubleAttr_ObjVal)).

Definition bound : M Gurobi double :=
  on_model (ask (Model_get GRB_DoubleAttr_ObjBound)).

(** [Gurobi::gap], source lines 326-329:
    [(objective() - bound()) / (1.0 + std::fabs(objective()))]; the three
    calls only read, they are taken from left to right. *)
Definition gap : M Gurobi double :=
  o1 <- objective ;;
  b <- bound ;;
  o2 <- objective ;;
  ret (div (sub o1 b) (add one (fabs o2))).

(** [Gurobi::label], source lines 331-336. *)
Definition label (variableIndex : Z) : M Gurobi double :=
  v <- var_at variableIndex ;;
  on_model (ask (Var_get v GRB_DoubleAttr_X)).

(** The loop shared by [addConstraint] and [addLazyConstraint]:
    for every index of the range [viBegin, viEnd), in order, the term
    "current coefficient times gurobiVariables_[static_cast<size_t>(index)]"
    is added to the expression and both iterators advance.  The index
    range is the list [indices]; [coefficient] holds what can be read from
    the coefficient iterator. *)
Fixpoint sum_terms (indices : list Z) (coefficient : list double)
    (expression : GRBLinExpr) : M Gurobi GRBLinExpr :=
  match indices with
  | [] => ret expression
  | vi :: indices' =>
      match coefficient with
      | [] => undefined
      | c :: coefficient' =>
          v <- var_at (to_size_t vi) ;;
          sum_terms indices' coefficient' (add_term expression c v)
      end
  end.

Definition GRBModel_addConstr (lhs : GRBLinExpr) (sense : Sense) (rhs : GRBLinExpr)
  : M Gurobi unit :=
  on_model (issue (Model_addConstr lhs sense rhs)).

(** [Gurobi::addConstraint], source lines 353-379. *)
Definition addConstraint (indices : list Z) (coefficient : list double)
    (lowerBound upperBound : double) : M Gurobi unit :=
  expression <- sum_terms indices coefficient GRBLinExpr_empty ;;
  if eqb lowerBound upperBound then
    GRBModel_addConstr expression GRB_EQUAL (GRBLinExpr_const lowerBound)
  else
    (if neqb lowerBound (neg infinity)
     then GRBModel_addConstr expression GRB_GREATER_EQUAL (GRBLinExpr_const lowerBound)
     else ret tt) ;;
    (if neqb upperBound infinity
     then GRBModel_addConstr expression GRB_LESS_EQUAL (GRBLinExpr_const upperBound)
     else ret tt).

(** The loop of [setStart] over [j = 0 .. nVariables_ - 1], which sets
    the attribute [GRB_DoubleAttr_Start] of [gurobiVariables_[j]] to the
    value under the iterator and advances it; [remaining] iterations are
    still to go. *)
Fixpoint setStart_loop (remaining : nat) (j : Z) (valueIterator : list double)
  : M Gurobi unit :=
  match remaining with
  | O => ret tt
  | S remaining' =>
      match valueIterator with
      | [] => undefined
      | x :: valueIterator' =>
          v <- var_at j ;;
          on_model (issue (Var_set_double v GRB_DoubleAttr_Start x)) ;;
          setStart_loop remaining' (j + 1) valueIterator'
      end
  end.

(** [Gurobi::setStart], source lines 381-390; [valueIterator] holds what
    can be read from the iterator. *)
Definition setStart (valueIterator : list double) : M Gurobi unit :=
  n <- gets nVariables_ ;;
  setStart_loop (Z.to_nat n) 0 valueIterator.

End Session.

(** ** The callback object [Gurobi::Callback] *)

(** The values of [GRBCallback::where] (macros of the solver's header). *)
Inductive Where : Type :=
| GRB_CB_POLLING
| GRB_CB_PRESOLVE
| GRB_CB_SIMPLEX
| GRB_CB_MIP
| GRB_CB_MIPSOL
| GRB_CB_MIPNODE
| GRB_CB_MESSAGE
| GRB_CB_BARRIER
| GRB_CB_MULTIOBJ
| GRB_CB_IIS.

Definition Where_eqb (a b : Where) : bool :=
  match a, b with
  | GRB_CB_POLLING, GRB_CB_POLLING
  | GRB_CB_PRESOLVE, GRB_CB_PRESOLVE
  | GRB_CB_SIMPLEX, GRB_CB_SIMPLEX
  | GRB_CB_MIP, GRB_CB_MIP
  | GRB_CB_MIPSOL, GRB_CB_MIPSOL
  | GRB_CB_MIPNODE, GRB_CB_MIPNODE
  | GRB_CB_MESSAGE, GRB_CB_MESSAGE
  | GRB_CB_BARRIER, GRB_CB_BARRIER
  | GRB_CB_MULTIOBJ, GRB_CB_MULTIOBJ
  | GRB_CB_IIS, GRB_CB_IIS => true
  | _, _ => false
  end.

Inductive CbWhat : Type :=
| GRB_CB_MIP_OBJBST
| GRB_CB_MIP_OBJBND.

(** What the solver lets the callback read during one invocation: the
    answers of [getDoubleInfo] and of [getSolution], each an error code and
    message or a value. *)
Record CbData : Type := {
  cb_info : CbWhat -> (Z * string) + double;
  cb_solution : GRBVar -> (Z * string) + double
}.

(** The object: the members of the base class [GRBCallback] the solver sets
    before it calls [callback()], the members of [Callback], the session
    [gurobi_] refers to, and the members [D] of the client's subclass. *)
Record Callback (D : Type) : Type := {
  where_ : Where;
  cbdata_ : CbData;
  objectiveBest_ : double;
  objectiveBound_ : double;
  feasibleHeuristic_ : bool;
  runtime_ : double;
  gurobi_ : Gurobi;
  derived_ : D
}.

(** The routines a subclass overrides. *)
Inductive Routine : Type :=
| Separation   (* separateAndAddLazyConstraints *)
| Heuristic.   (* computeFeasibleSolution *)

(** A callback object together with the record of the overridden routines
    the dispatcher has called on it, oldest first. *)
Record Dispatch (D : Type) : Type := {
  self : Callback D;
  invoked : list Routine
}.

(** One invocation by the solver. *)
Record SearchEvent : Type := {
  ev_where : Where;
  ev_data : CbData
}.

Section CallbackObject.

Variable solver : Solver.
(** The macro [GRB_INFINITY] of the solver's header. *)
Variable GRB_INFINITY : double.
Variable D : Type.

Definition set_event (ev : SearchEvent) (c : Callback D) : Callback D :=
  {| where_ := ev_where ev; cbdata_ := ev_data ev;
     objectiveBest_ := objectiveBest_ c; objectiveBound_ := objectiveBound_ c;
     feasibleHeuristic_ := feasibleHeuristic_ c; runtime_ := runtime_ c;
     gurobi_ := gurobi_ c; derived_ := derived_ c |}.

Definition set_objectiveBest_ (x : double) (c : Callback D) : Callback D :=
  {| where_ := where_ c; cbdata_ := cbdata_ c;
     objectiveBest_ := x; objectiveBound_ := objectiveBound_ c;
     feasibleHeuristic_ := feasibleHeuristic_ c; runtime_ := runtime_ c;
     gurobi_ := gurobi_ c; derived_ := derived_ c |}.

Definition set_objectiveBound_ (x : double) (c : Callback D) : Callback D :=
  {| where_ := where_ c; cbdata_ := cbdata_ c;
     objectiveBest_ := objectiveBest_ c; objectiveBound_ := x;
     feasibleHeuristic_ := feasibleHeuristic_ c; runtime_ := runtime_ c;
     gurobi_ := gurobi_ c; derived_ := derived_ c |}.

Definition set_feasibleHeuristic_ (b : bool) (c : Callback D) : Callback D :=
  {| where_ := where_ c; cbdata_ := cbdata_ c;
     objectiveBest_ := objectiveBest_ c; objectiveBound_ := objectiveBound_ c;
     feasibleHeuristic_ := b; runtime_ := runtime_ c;
     gurobi_ := gurobi_ c; derived_ := derived_ c |}.

Definition set_gurobi_ (g : Gurobi) (c : Callback D) : Callback D :=
  {| where_ := where_ c; cbdata_ := cbdata_ c;
     objectiveBest_ := objectiveBest_ c; objectiveBound_ := objectiveBound_ c;
     feasibleHeuristic_ := feasibleHeuristic_ c; runtime_ := runtime_ c;
     gurobi_ := g; derived_ := derived_ c |}.

(** [Callback(Gurobi& gurobi)] with the default member initialisers. *)
Definition Callback_ctor (gurobi : Gurobi) (d : D) (ev : SearchEvent) : Callback D :=
  {| where_ := ev_where ev; cbdata_ := ev_data ev;
     objectiveBest_ := infinity; objectiveBound_ := neg infinity;
     feasibleHeuristic_ := false; runtime_ := zero;
     gurobi_ := gurobi; derived_ := d |}.

Definition on_gurobi {A} (m : M Gurobi A) : M (Callback D) A :=
  zoom (@gurobi_ D) set_gurobi_ m.

(** *** Members inherited from [GRBCallback] *)

Definition getDoubleInfo (what : CbWhat) : M (Callback D) double :=
  fun c =>
    match cb_info (cbdata_ c) what with
    | inl (code, msg) => Throw (GRBException code msg) c
    | inr x => Normal x c
    end.

Definition getSolution (v : GRBVar) : M (Callback D) double :=
  fun c =>
    match cb_solution (cbdata_ c) v with
    | inl (code, msg) => Throw (GRBException code msg) c
    | inr x => Normal x c
    end.

Definition setSolution (v : GRBVar) (x : double) : M (Callback D) unit :=
  on_gurobi (on_model (issue solver (Cb_setSolution v x))).

Definition addLazy (tc : GRBTempConstr) : M (Callback D) unit :=
  on_gurobi (on_model (issue solver (Cb_addLazy tc))).

(** *** Members of [Callback] available to the subclass *)

(** [Callback::label] and [Callback::setLabel], source lines 60-70. *)
Definition Callback_label (variableIndex : Z) : M (Callback D) double :=
  v <- on_gurobi (on_model (GRBModel_getVar solver (int_of_size_t variableIndex))) ;;
  getSolution v.

Definition setLabel (variableIndex : Z) (val : double) : M (Callback D) unit :=
  v <- on_gurobi (on_model (GRBModel_getVar solver (int_of_size_t variableIndex))) ;;
  setSolution v val.

(** [Callback::addLazyConstraint], source lines 73-97. *)
Definition addLazyConstraint (indices : list Z) (coefficient : list double)
    (lowerBound upperBound : double) : M (Callback D) unit :=
  expression <- on_gurobi (sum_terms indices coefficient GRBLinExpr_empty) ;;
  if eqb lowerBound upperBound then
    addLazy {| tc_lhs := expression; tc_sense := GRB_EQUAL;
               tc_rhs := GRBLinExpr_const lowerBound |}
  else
    (if neqb lowerBound (neg infinity)
     then addLazy {| tc_lhs := GRBLinExpr_const lowerBound; tc_sense := GRB_LESS_EQUAL;
                     tc_rhs := expression |}
     else ret tt) ;;
    (if neqb upperBound infinity
     then addLazy {| tc_lhs := expression; tc_sense := GRB_LESS_EQUAL;
                     tc_rhs := GRBLinExpr_const upperBound |}
     else ret tt).

(** *** The dispatcher *)

(** The pure virtual member functions, as the subclass defines them. *)
Variable separateAndAddLazyConstraints : M (Callback D) unit.
Variable computeFeasibleSolution : M (Callback D) unit.

Definition on_self {A} (m : M (Callback D) A) : M (Dispatch D) A :=
  zoom (@self D) (fun c d => {| self := c; invoked := invoked d |}) m.

(** A virtual call: noted in [invoked], then run on the object. *)
Definition invoke (r : Routine) (body : M (Callback D) unit) : M (Dispatch D) unit :=
  modify (fun d => {| self := self d; invoked := invoked d ++ [r] |}) ;;
  on_self body.

Definition where_is (w : Where) : M (Dispatch D) bool :=
  gets (fun d => Where_eqb (where_ (self d)) w).

(** [Callback::callback], source lines 31-58: the body of its
    function-try-block. *)
Definition callback_try : M (Dispatch D) unit :=
  mip <- where_is GRB_CB_MIP ;;
  (if mip then
     on_self (
       best <- getDoubleInfo GRB_CB_MIP_OBJBST ;;
       modify (set_objectiveBest_ best) ;;
       best' <- gets (@objectiveBest_ D) ;;
       (if eqb best' GRB_INFINITY
        then modify (set_objectiveBest_ infinity) else ret tt) ;;
       bnd <- getDoubleInfo GRB_CB_MIP_OBJBND ;;
       modify (set_objectiveBound_ bnd) ;;
       bnd' <- gets (@objectiveBound_ D) ;;
       (if eqb bnd' (neg GRB_INFINITY)
        then modify (set_objectiveBound_ (neg infinity)) else ret tt))
   else ret tt) ;;
  mipsol <- where_is GRB_CB_MIPSOL ;;
  if mipsol then
    invoke Separation separateAndAddLazyConstraints ;;
    on_self (modify (set_feasibleHeuristic_ true))
  else
    mipnode <- where_is GRB_CB_MIPNODE ;;
    flag <- gets (fun d => feasibleHeuristic_ (self d)) ;;
    if mipnode && flag then
      invoke Heuristic computeFeasibleSolution ;;
      on_self (modify (set_feasibleHeuristic_ false))
    else ret tt.

(** The message of the [std::runtime_error] the handler throws. *)
Definition callback_error_message (code : Z) (msg : string) : string :=
  ("Gurobi error " ++ to_string code ++ ": " ++ msg
     ++ " while executing Gurobi callback")%string.

(** [catch (GRBException const& e) { throw std::runtime_error(...); }]:
    any other exception passes through. *)
Definition callback_handler (e : exn) : M (Dispatch D) unit :=
  match e with
  | GRBException code msg => throw (runtime_error (callback_error_message code msg))
  | _ => throw e
  end.

Definition callback : M (Dispatch D) unit :=
  try_catch callback_try callback_handler.

(** The solver sets [where] and the callback data, then calls
    [callback()]. *)
Definition dispatch (ev : SearchEvent) : M (Dispatch D) unit :=
  on_self (modify (set_event ev)) ;;
  callback.

(** A sequence of dispatches, each returning before the next starts. *)
Fixpoint dispatch_all (evs : list SearchEvent) : M (Dispatch D) unit :=
  match evs with
  | [] => ret tt
  | ev :: evs' => dispatch ev ;; dispatch_all evs'
  end.

End CallbackObject.

(** ** Concrete solvers and sessions used in examples *)

(** A solver that accepts every call and answers every query with zero. *)
Definition accepting : Solver :=
  {| rejects := fun _ _ => None;
     refuses := fun _ _ => None;
     value := fun _ _ => zero |}.

Definition is_optimize (c : call) : bool :=
  match c with Model_optimize => true | _ => false end.

(** A solver that accepts every call, refuses every attribute query until
    [optimize] has been called, and then reports objective 3 and bound 1. *)
Definition solved_after_optimize : Solver :=
  {| rejects := fun _ _ => None;
     refuses := fun l q =>
       match q with
       | Model_getVar _ => None
       | _ => if existsb is_optimize l then None
              else Some (10005, "Unable to retrieve attribute"%string)
       end;
     value := fun _ q =>
       match q with
       | Model_get GRB_DoubleAttr_ObjVal => of_Z 3
       | Model_get GRB_DoubleAttr_ObjBound => of_Z 1
       | _ => zero
       end |}.

(** The value of the macro [GRB_INFINITY] in the solver's header, [1e100]:
    the binary64 number [5147557589468029 * 2^280]. *)
Definition GRB_INFINITY_1e100 : double := S754_finite false 5147557589468029 280.

(** The state and the log an outcome ends in. *)
Definition final_state {S A} (o : outcome S A) : option S :=
  match o with
  | Normal _ s | Throw _ s => Some s
  | Undefined => None
  end.

Definition session_log (g : Gurobi) : list call := log (gurobiModel_ g).

Definition final_log {A} (o : outcome Gurobi A) : option (list call) :=
  option_map session_log (final_state o).

(** An outcome that is an exception leaving the function. *)
Definition throws {S A} (o : outcome S A) : Prop :=
  exists e s, o = Throw e s.

(** A session right after construction. *)
Definition fresh_session (solver : Solver) : outcome Gurobi unit :=
  Gurobi_ctor solver Gurobi_members.

(** A session with two variables added in one call. *)
Definition two_variable_session (solver : Solver) : outcome Gurobi unit :=
  (Gurobi_ctor solver ;; addVariables solver 2 [one; one]) Gurobi_members.

(** The session an outcome ends in ([Gurobi_members] when there is none). *)
Definition session_of (o : outcome Gurobi unit) : Gurobi :=
  match final_state o with
  | Some g => g
  | None => Gurobi_members
  end.

(** The sessions of the examples: without variables, with two variables,
    and with two variables before and after [optimize] on the solver
    [solved_after_optimize]. *)
Definition no_variables : Gurobi :=
  session_of (fresh_session solved_after_optimize).
Definition two_variables : Gurobi :=
  session_of (two_variable_session accepting).
Definition unsolved_session : Gurobi :=
  session_of (two_variable_session solved_after_optimize).
Definition solved_session : Gurobi :=
  session_of ((Gurobi_ctor solved_after_optimize ;;
               addVariables solved_after_optimize 2 [one; one] ;;
               optimize solved_after_optimize) Gurobi_members).

(** A session on which [addVariables] is called twice, one variable each
    time, with objective coefficients 1 and 2. *)
Definition two_batches_session (solver : Solver) : outcome Gurobi unit :=
  (Gurobi_ctor solver ;;
   addVariables solver 1 [one] ;;
   addVariables solver 1 [of_Z 2]) Gurobi_members.

(** ** Definitions used to state the properties *)

(** The value written to [GRB_IntParam_PreDual] for a pre-solver choice;
    none for [PRE_SOLVER_NONE]. *)
Definition PreDual_value (preSolver : PreSolver) : option Z :=
  match preSolver with
  | PRE_SOLVER_AUTO => Some (-1)
  | PRE_SOLVER_PRIMAL => Some 0
  | PRE_SOLVER_DUAL => Some 1
  | PRE_SOLVER_NONE => None
  end.

(** relative gap = (objective - bound) / (1 + |objective|), in binary64
    arithmetic. *)
Definition relative_gap (objective bound : double) : double :=
  div (sub objective bound) (add one (fabs objective)).

(** The one-sided and equality constraints of a static addition. *)
Definition equality_constraint (expression : GRBLinExpr) (b : double) : call :=
  Model_addConstr expression GRB_EQUAL (GRBLinExpr_const b).
Definition lower_constraint (expression : GRBLinExpr) (lowerBound : double) : call :=
  Model_addConstr expression GRB_GREATER_EQUAL (GRBLinExpr_const lowerBound).
Definition upper_constraint (expression : GRBLinExpr) (upperBound : double) : call :=
  Model_addConstr expression GRB_LESS_EQUAL (GRBLinExpr_const upperBound).

(** The same for a lazy addition: [expression == b], [lowerBound <=
    expression], [expression <= upperBound]. *)
Definition lazy_equality (expression : GRBLinExpr) (b : double) : call :=
  Cb_addLazy {| tc_lhs := expression; tc_sense := GRB_EQUAL;
                tc_rhs := GRBLinExpr_const b |}.
Definition lazy_lower (expression : GRBLinExpr) (lowerBound : double) : call :=
  Cb_addLazy {| tc_lhs := GRBLinExpr_const lowerBound; tc_sense := GRB_LESS_EQUAL;
                tc_rhs := expression |}.
Definition lazy_upper (expression : GRBLinExpr) (upperBound : double) : call :=
  Cb_addLazy {| tc_lhs := expression; tc_sense := GRB_LESS_EQUAL;
                tc_rhs := GRBLinExpr_const upperBound |}.

(** A side is present unless its bound is the infinity that makes it void. *)
Definition unless (omit : bool) (c : call) : list call :=
  if omit then [] else [c].

(** The [size_t] value [i] addresses an element of the array
    [gurobiVariables_]. *)
Definition in_array (g : Gurobi) (i : Z) : bool :=
  match gurobiVariables_ g with
  | None => false
  | Some vars => (0 <=? i) && (i <? Z.of_nat (List.length vars))
  end.

(** The handle stored at position [i] of [gurobiVariables_]. *)
Definition handle_at (g : Gurobi) (i : Z) : GRBVar :=
  match gurobiVariables_ g with
  | None => 0%nat
  | Some vars => nth (Z.to_nat i) vars 0%nat
  end.

(** The terms built from index and coefficient sequences. *)
Definition terms_of (g : Gurobi) (indices : list Z) (coefficient : list double)
  : list (double * GRBVar) :=
  combine coefficient (map (fun i => handle_at g (to_size_t i)) indices).

(** The calls that set the start values of [vars] to [values], pairwise. *)
Definition start_calls (vars : list GRBVar) (values : list double) : list call :=
  map (fun vx => Var_set_double (fst vx) GRB_DoubleAttr_Start (snd vx))
      (combine vars values).

(** The session [g] after the solver has accepted the calls [cs]. *)
Definition after_calls (cs : list call) (g : Gurobi) : Gurobi :=
  set_gurobiModel_ {| numVars := numVars (gurobiModel_ g);
                      log := session_log g ++ cs |} g.

(** The heuristic flag of a dispatcher state. *)
Definition flag {D} (d : Dispatch D) : bool := feasibleHeuristic_ (self d).

(** The protocol as a two-state automaton over the sequence of [where]
    values: the flag after the sequence, and the routines called. *)
Fixpoint expected_flag (b : bool) (ws : list Where) : bool :=
  match ws with
  | [] => b
  | GRB_CB_MIPSOL :: ws' => expected_flag true ws'
  | GRB_CB_MIPNODE :: ws' => expected_flag false ws'
  | _ :: ws' => expected_flag b ws'
  end.

Fixpoint expected_routines (b : bool) (ws : list Where) : list Routine :=
  match ws with
  | [] => []
  | GRB_CB_MIPSOL :: ws' => Separation :: expected_routines true ws'
  | GRB_CB_MIPNODE :: ws' =>
      (if b then [Heuristic] else []) ++ expected_routines false ws'
  | _ :: ws' => expected_routines b ws'
  end.

(** The routine a dispatch calls, if any. *)
Definition routine_due {D} (d : Dispatch D) : option Routine :=
  match where_ (self d) with
  | GRB_CB_MIPSOL => Some Separation
  | GRB_CB_MIPNODE => if flag d then Some Heuristic else None
  | _ => None
  end.

Definition is_Heuristic (r : Routine) : bool :=
  match r with Heuristic => true | Separation => false end.
Definition is_Separation (r : Routine) : bool :=
  match r with Separation => true | Heuristic => false end.

(** The exception that leaves [callback()] when [e] was raised inside. *)
Definition rethrown (e : exn) : exn :=
  match e with
  | GRBException code msg =>
      runtime_error ("Gurobi error " ++ to_string code ++ ": " ++ msg
                       ++ " while executing Gurobi callback")
  | _ => e
  end.

(** The override behind a routine. *)
Definition routine_body {D} (separate heuristic : M (Callback D) unit)
    (r : Routine) : M (Callback D) unit :=
  match r with
  | Separation => separate
  | Heuristic => heuristic
  end.

(** What a dispatch that calls the routine [r] results in, when the flag is
    then set to [b]: the routine's normal return followed by the flag update,
    or the routine's exception, translated, with no update. *)
Definition after_routine {D} (separate heuristic : M (Callback D) unit)
    (r : Routine) (b : bool) (d : Dispatch D) : outcome (Dispatch D) unit :=
  match routine_body separate heuristic r (self d) with
  | Normal _ c' =>
      Normal tt {| self := set_feasibleHeuristic_ b c';
                   invoked := invoked d ++ [r] |}
  | Throw e c' =>
      Throw (rethrown e) {| self := c'; invoked := invoked d ++ [r] |}
  | Undefined => Undefined
  end.

(** The dispatcher state in which the solver has set the event. *)
Definition with_event {D} (ev : SearchEvent) (d : Dispatch D) : Dispatch D :=
  {| self := set_event ev (self d); invoked := invoked d |}.

(** An exception that carries a solver error code and message: the
    solver's own exception, or the runtime error built from one. *)
Definition carries_solver_error (e : exn) : Prop :=
  match e with
  | GRBException _ _ => True
  | runtime_error what =>
      exists code msg, what = callback_error_message code msg
  | other_exception _ => False
  end.

(** The translations applied to the two values of a progress event. *)
Definition translate_best (GRB_INFINITY best : double) : double :=
  if eqb best GRB_INFINITY then infinity else best.
Definition translate_bound (GRB_INFINITY bnd : double) : double :=
  if eqb bnd (neg GRB_INFINITY) then neg infinity else bnd.

(** "Every solver sentinel, of either sign, is mapped to the infinity of
    that sign", for one stored value [stored] received as [received]. *)
Definition sentinel_translated (GRB_INFINITY received stored : double) : Prop :=
  (eqb received GRB_INFINITY = true -> stored = infinity)
  /\ (eqb received (neg GRB_INFINITY) = true -> stored = neg infinity).

(** ** Callback objects used in examples *)

Definition no_data : CbData :=
  {| cb_info := fun _ => inr zero; cb_solution := fun _ => inr zero |}.

Definition event (w : Where) : SearchEvent :=
  {| ev_where := w; ev_data := no_data |}.

(** A progress event ([where == GRB_CB_MIP]) reporting [best] and [bnd]. *)
Definition progress_event (best bnd : double) : SearchEvent :=
  {| ev_where := GRB_CB_MIP;
     ev_data := {| cb_info := fun what =>
                     match what with
                     | GRB_CB_MIP_OBJBST => inr best
                     | GRB_CB_MIP_OBJBND => inr bnd
                     end;
                   cb_solution := fun _ => inr zero |} |}.

(** A callback object on a two-variable session, before any dispatch. *)
Definition idle_callback : Dispatch unit :=
  {| self := Callback_ctor two_variables tt (event GRB_CB_POLLING);
     invoked := [] |}.

(** Overrides that do nothing. *)
Definition do_nothing : M (Callback unit) unit := ret tt.

(** A separation routine that throws [std::logic_error]. *)
Definition failing_separation : M (Callback unit) unit :=
  throw (other_exception "std::logic_error").

(** A separation routine that adds the cut [x0 + x1 <= 1]. *)
Definition cutting_separation (solver : Solver) : M (Callback unit) unit :=
  addLazyConstraint solver [0; 1] [one; one] (neg infinity) one.

(** A solver that rejects every lazy constraint. *)
Definition rejecting_lazy : Solver :=
  {| rejects := fun _ c =>
       match c with
       | Cb_addLazy _ => Some (10011, "Lazy constraints not enabled"%string)
       | _ => None
       end;
     refuses := fun _ _ => None;
     value := fun _ _ => zero |}.

(** The restriction "no two consecutive candidate events keep the flag
    true": for two dispatches with [where == GRB_CB_MIPSOL] that follow each
    other, the flag is not true after the first and still true after the
    second. *)
Definition flag_reset_between_candidates (GRB_INFINITY : double) (D : Type)
    (separate heuristic : M (Callback D) unit) : Prop :=
  forall (ev1 ev2 : SearchEvent) (d d1 d2 : Dispatch D),
    ev_where ev1 = GRB_CB_MIPSOL ->
    ev_where ev2 = GRB_CB_MIPSOL ->
    dispatch GRB_INFINITY separate heuristic ev1 d = Normal tt d1 ->
    dispatch GRB_INFINITY separate heuristic ev2 d1 = Normal tt d2 ->
    ~ (flag d1 = true /\ flag d2 = true).

(** ** Definitions for the properties of [addVariables] and of sequences
    of member calls *)

(** The handles [addVars] returns for [n] new variables of a model that
    holds [m]. *)
Definition new_handles (g : Gurobi) (n : nat) : list GRBVar :=
  seq (numVars (gurobiModel_ g)) n.

(** The objective after [addVariables]: one more term per new variable. *)
Definition extended_objective (g : Gurobi) (n : nat) (coefficients : list double)
  : GRBLinExpr :=
  {| constant := constant (gurobiObjective_ g);
     terms := terms (gurobiObjective_ g) ++ combine coefficients (new_handles g n) |}.

(** A call of a member function of [Gurobi] by a client, its result
    dropped. *)
Inductive member : Type :=
| call_setVerbosity (verbosity : bool)
| call_setPreSolver (preSolver : PreSolver) (passes : Z)
| call_addVariables (numberOfVariables : Z) (coefficients : list double)
| call_setBranchPrio (variableIndex branchPriority : Z)
| call_setCallback
| call_optimize
| call_objective
| call_bound
| call_gap
| call_label (variableIndex : Z)
| call_addConstraint (indices : list Z) (coefficient : list double)
                     (lowerBound upperBound : double)
| call_setStart (values : list double).

Definition discard {S A} (m : M S A) : M S unit := m ;; ret tt.

Definition run_member (solver : Solver) (m : member) : M Gurobi unit :=
  match m with
  | call_setVerbosity verbosity => setVerbosity solver verbosity
  | call_setPreSolver preSolver passes => setPreSolver solver preSolver passes
  | call_addVariables n coefficients => addVariables solver n coefficients
  | call_setBranchPrio i priority => setBranchPrio solver i priority
  | call_setCallback => setCallback solver
  | call_optimize => optimize solver
  | call_objective => discard (objective solver)
  | call_bound => discard (bound solver)
  | call_gap => discard (gap solver)
  | call_label i => discard (label solver i)
  | call_addConstraint indices coefficient lowerBound upperBound =>
      addConstraint solver indices coefficient lowerBound upperBound
  | call_setStart values => setStart solver values
  end.

(** A client program: the member calls one after the other, each returning
    before the next. *)
Fixpoint run_members (solver : Solver) (ms : list member) : M Gurobi unit :=
  match ms with
  | [] => ret tt
  | m :: ms' => run_member solver m ;; run_members solver ms'
  end.

Definition is_addVariables (m : member) : bool :=
  match m with call_addVariables _ _ => true | _ => false end.

(** Every [addVariables] call of the program asks for a number of variables
    that fits the solver's [int]. *)
Definition counts_fit (ms : list member) : Prop :=
  forall n coefficients, In (call_addVariables n coefficients) ms -> 0 <= n < 2 ^ 31.

(** The variable bookkeeping of the wrapper and the size of the model. *)
Definition same_variables (g g' : Gurobi) : Prop :=
  gurobiVariables_ g' = gurobiVariables_ g
  /\ nVariables_ g' = nVariables_ g
  /\ gurobiObjective_ g' = gurobiObjective_ g
  /\ numVars (gurobiModel_ g') = numVars (gurobiModel_ g).

(** A computation on the session that keeps the variable bookkeeping,
    whether it returns or throws. *)
Definition keeps_variables {A} (m : M Gurobi A) : Prop :=
  forall g g', final_state (m g) = Some g' -> same_variables g g'.

(** Count, array and model agree: the array (if any) holds the handles of
    all the model's variables in order, and [nVariables_] is their number,
    which fits an [int]. *)
Definition balanced (g : Gurobi) : Prop :=
  nVariables_ g = Z.of_nat (numVars (gurobiModel_ g))
  /\ nVariables_ g < 2 ^ 31
  /\ match gurobiVariables_ g with
     | None => numVars (gurobiModel_ g) = 0%nat
     | Some vars => vars = seq 0 (numVars (gurobiModel_ g))
     end.

(** The number of [addVariables] calls in a program. *)
Definition batches (ms : list member) : nat :=
  List.length (filter is_addVariables ms).

(** A client program run on a newly constructed session. *)
Definition program (solver : Solver) (ms : list member) : outcome Gurobi unit :=
  (Gurobi_ctor solver ;; run_members solver ms) Gurobi_members.

(** A solver that rejects every [addVars]. *)
Definition rejecting_addVars : Solver :=
  {| rejects := fun _ c =>
       match c with
       | Model_addVars _ _ => Some (10001, "Out of memory"%string)
       | _ => None
       end;
     refuses := fun _ _ => None;
     value := fun _ _ => zero |}.

(** The constraints a static and a lazy addition emit for an expression. *)
Definition emitted_constraints (expression : GRBLinExpr) (lowerBound upperBound : double)
  : list call :=
  if eqb lowerBound upperBound then [equality_constraint expression lowerBound]
  else unless (is_neg_infinity lowerBound) (lower_constraint expression lowerBound)
       ++ unless (is_pos_infinity upperBound) (upper_constraint expression upperBound).

Definition emitted_lazy (expression : GRBLinExpr) (lowerBound upperBound : double)
  : list call :=
  if eqb lowerBound upperBound then [lazy_equality expression lowerBound]
  else unless (is_neg_infinity lowerBound) (lazy_lower expression lowerBound)
       ++ unless (is_pos_infinity upperBound) (lazy_upper expression upperBound).

(** The expression over the model variables numbered [indices]. *)
Definition expression_over (indices : list Z) (coefficient : list double) : GRBLinExpr :=
  {| constant := zero; terms := combine coefficient (map Z.to_nat indices) |}.

(** A solver that accepts a first constraint and rejects every later one. *)
Definition one_constraint_only : Solver :=
  {| rejects := fun l c =>
       match c with
       | Model_addConstr _ _ _ =>
           if existsb (fun k => match k with Model_addConstr _ _ _ => true | _ => false end) l
           then Some (10003, "Invalid argument"%string) else None
       | _ => None
       end;
     refuses := fun _ _ => None;
     value := fun _ _ => zero |}.

(** NaN. *)
Definition nan : double := S754_nan.

(** ** Definitions for the properties of the dispatcher *)

(** The number of events of a kind in a sequence of [where] values. *)
Definition count_where (w : Where) (ws : list Where) : nat :=
  List.length (filter (Where_eqb w) ws).

(** A routine that, when it returns, has left the two progress values as
    they were. *)
Definition keeps_progress {D} (body : M (Callback D) unit) : Prop :=
  forall c c', body c = Normal tt c' ->
    objectiveBest_ c' = objectiveBest_ c /\ objectiveBound_ c' = objectiveBound_ c.

(** The progress values after a sequence of events: those of the latest
    progress event, translated, or the earlier ones if there was none. *)
Fixpoint expected_best (GRB_INFINITY : double) (current : double)
    (evs : list SearchEvent) : double :=
  match evs with
  | [] => current
  | ev :: evs' =>
      expected_best GRB_INFINITY
        (match ev_where ev, cb_info (ev_data ev) GRB_CB_MIP_OBJBST with
         | GRB_CB_MIP, inr best => translate_best GRB_INFINITY best
         | _, _ => current
         end) evs'
  end.

Fixpoint expected_bound (GRB_INFINITY : double) (current : double)
    (evs : list SearchEvent) : double :=
  match evs with
  | [] => current
  | ev :: evs' =>
      expected_bound GRB_INFINITY
        (match ev_where ev, cb_info (ev_data ev) GRB_CB_MIP_OBJBND with
         | GRB_CB_MIP, inr bnd => translate_bound GRB_INFINITY bnd
         | _, _ => current
         end) evs'
  end.

(** A progress event whose bound cannot be read. *)
Definition unreadable_bound_event (best : double) : SearchEvent :=
  {| ev_where := GRB_CB_MIP;
     ev_data := {| cb_info := fun what =>
                     match what with
                     | GRB_CB_MIP_OBJBST => inr best
                     | GRB_CB_MIP_OBJBND => inl (10005, "Unable to retrieve"%string)
                     end;
                   cb_solution := fun _ => inr zero |} |}.

(** A callback object on the session of [two_batches_session]. *)
Definition two_batches_callback : Callback unit :=
  Callback_ctor (session_of (two_batches_session accepting)) tt (event GRB_CB_MIPNODE).

(** The characters [:] and space. *)
Definition colon : Ascii.ascii :=
  Ascii.Ascii false true false true true true false false.
Definition space : Ascii.ascii :=
  Ascii.Ascii false false false false false true false false.

(** The string contains a colon. *)
Fixpoint has_colon (s : string) : bool :=
  match s with
  | EmptyString => false
  | String a s' => Ascii.eqb a colon || has_colon s'
  end.

(** A solver that rejects every write of [GRB_IntParam_PreDual]. *)
Definition rejecting_PreDual : Solver :=
  {| rejects := fun _ c =>
       match c with
       | Env_set GRB_IntParam_PreDual _ => Some (10008, "Unable to set parameter"%string)
       | _ => None
       end;
     refuses := fun _ _ => None;
     value := fun _ _ => zero |}.

(** * Properties *)

(** ** Doubles *)

Lemma neqb_neg_infinity (x : double) :
  neqb x (neg infinity) = negb (is_neg_infinity x).
Proof. destruct x as [s | s | | s m e]; try destruct s; reflexivity. Qed.

Lemma neqb_infinity (x : double) :
  neqb x infinity = negb (is_pos_infinity x).
Proof. destruct x as [s | s | | s m e]; try destruct s; reflexivity. Qed.

Lemma is_neg_infinity_spec (x : double) :
  is_neg_infinity x = true <-> x = S754_infinity true.
Proof.
  split; [| intros ->; reflexivity].
  destruct x as [s | s | | s m e]; try destruct s; simpl; congruence.
Qed.

Lemma is_pos_infinity_spec (x : double) :
  is_pos_infinity x = true <-> x = S754_infinity false.
Proof.
  split; [| intros ->; reflexivity].
  destruct x as [s | s | | s m e]; try destruct s; simpl; congruence.
Qed.

Lemma ltb_not_eqb (x y : double) : ltb x y = true -> eqb x y = false.
Proof.
  unfold ltb, eqb, SFltb, SFeqb.
  destruct (SFcompare x y) as [[ | | ] | ]; congruence.
Qed.

Example to_string_10005 : to_string 10005 = "10005"%string.
Proof. reflexivity. Qed.

Example to_string_negative : to_string (-7) = "-7"%string.
Proof. reflexivity. Qed.

(** [1e100] is finite: it is neither infinity, and differs from its own
    negation. *)
Example GRB_INFINITY_1e100_finite :
  eqb GRB_INFINITY_1e100 infinity = false
  /\ eqb (neg GRB_INFINITY_1e100) (neg infinity) = false
  /\ eqb (neg GRB_INFINITY_1e100) GRB_INFINITY_1e100 = false.
Proof. repeat split. Qed.

(** ** Sessions *)

Example fresh_session_accepting :
  fresh_session accepting =
  Normal tt {| gurobiModel_ := {| numVars := 0;
                                  log := [Env_set GRB_IntParam_OutputFlag 0;
                                          Env_set GRB_IntParam_Disconnected 2] |};
               gurobiVariables_ := None;
               gurobiObjective_ := GRBLinExpr_empty;
               nVariables_ := 0 |}.
Proof. reflexivity. Qed.

Example two_variable_session_accepting :
  exists g, two_variable_session accepting = Normal tt g
            /\ gurobiVariables_ g = Some [0%nat; 1%nat]
            /\ nVariables_ g = 2
            /\ terms (gurobiObjective_ g) = [(one, 0%nat); (one, 1%nat)].
Proof. eexists. repeat split. Qed.

Ltac unfold_monad :=
  unfold bind, ret, gets, modify, throw, undefined, try_catch, zoom in *.

(** Simplify a dispatch with the value of [where] known from [Hw]. *)
Ltac known_where Hw := repeat (cbv beta; rewrite ?Hw; simpl).

Section SessionFacts.

Variable solver : Solver.

Lemma issue_accepted c g :
  rejects solver (session_log g) c = None ->
  on_model (issue solver c) g =
  Normal tt (set_gurobiModel_ {| numVars := numVars (gurobiModel_ g);
                                 log := session_log g ++ [c] |} g).
Proof.
  unfold on_model, issue, session_log. unfold_monad.
  intros ->. reflexivity.
Qed.

Lemma issue_log c g :
  final_log (on_model (issue solver c) g) = Some (session_log g ++ [c]).
Proof.
  unfold on_model, issue, final_log, session_log. unfold_monad.
  destruct (rejects solver (log (gurobiModel_ g)) c) as [[code msg] | ];
    reflexivity.
Qed.

(** A query leaves the session as it is. *)
Lemma ask_answer q g :
  on_model (ask solver q) g =
  match refuses solver (session_log g) q with
  | Some (code, msg) => Throw (GRBException code msg) g
  | None => Normal (value solver (session_log g) q) g
  end.
Proof.
  unfold on_model, ask, session_log. unfold_monad.
  destruct g as [m vs ob n]; simpl.
  destruct (refuses solver (log m) q) as [[code msg] | ]; reflexivity.
Qed.

End SessionFacts.

(** ** Pre-solver configuration *)

(** C10.  [setPreSolver] with [PRE_SOLVER_NONE] writes [Presolve = 0] and
    nothing else, whatever [passes] is; with any other choice it writes
    [PreDual] and then, the solver having accepted that write, the pass count
    [PrePasses = passes]; without a pass count the value written is [-1]. *)
Theorem setPreSolver_pass_count
    (solver : Solver) (preSolver : PreSolver) (passes : Z) (g : Gurobi) :
  (forall v, PreDual_value preSolver = Some v ->
             rejects solver (session_log g) (Env_set GRB_IntParam_PreDual v) = None) ->
  final_log (setPreSolver solver preSolver passes g) =
    Some (session_log g ++
          match PreDual_value preSolver with
          | None => [Env_set GRB_IntParam_Presolve 0]
          | Some v => [Env_set GRB_IntParam_PreDual v;
                       Env_set GRB_IntParam_PrePasses passes]
          end)
  /\ (preSolver = PRE_SOLVER_NONE ->
      forall passes', setPreSolver solver preSolver passes' g
                      = setPreSolver solver preSolver passes g)
  /\ final_log (setPreSolver_default solver preSolver g) =
       Some (session_log g ++
             match PreDual_value preSolver with
             | None => [Env_set GRB_IntParam_Presolve 0]
             | Some v => [Env_set GRB_IntParam_PreDual v;
                          Env_set GRB_IntParam_PrePasses (-1)]
             end).
Proof.
  intros Hacc.
  assert (Hgen : forall p,
    final_log (setPreSolver solver preSolver p g) =
    Some (session_log g ++
          match PreDual_value preSolver with
          | None => [Env_set GRB_IntParam_Presolve 0]
          | Some v => [Env_set GRB_IntParam_PreDual v; Env_set GRB_IntParam_PrePasses p]
          end)).
  { intros p. destruct preSolver; simpl in *;
      try apply issue_log;
      unfold bind, env_set;
      (rewrite issue_accepted by (apply Hacc; reflexivity));
      rewrite issue_log; unfold session_log; simpl;
      rewrite <- app_assoc; reflexivity. }
  split; [apply Hgen |].
  split; [| apply Hgen].
  intros -> passes'. reflexivity.
Qed.

Lemma setPreSolver_pass_count_witness :
  final_log (setPreSolver accepting PRE_SOLVER_DUAL 3
               (session_of (fresh_session accepting)))
  = Some [Env_set GRB_IntParam_OutputFlag 0; Env_set GRB_IntParam_Disconnected 2;
          Env_set GRB_IntParam_PreDual 1; Env_set GRB_IntParam_PrePasses 3].
Proof.
  apply (setPreSolver_pass_count accepting PRE_SOLVER_DUAL 3
           (session_of (fresh_session accepting))).
  intros v _. reflexivity.
Defined.

(** ** Relative gap *)

(** C9.  When [objective()] and [bound()] return values, [gap()] returns
    (objective - bound) / (1 + |objective|) computed from these two values,
    and leaves the session unchanged. *)
Theorem gap_is_relative_gap
    (solver : Solver) (g g1 g2 : Gurobi) (o b : double) :
  objective solver g = Normal o g1 ->
  bound solver g = Normal b g2 ->
  gap solver g = Normal (relative_gap o b) g.
Proof.
  unfold gap, objective, bound. intros Ho Hb.
  rewrite ask_answer in Ho, Hb.
  destruct (refuses solver (session_log g) (Model_get GRB_DoubleAttr_ObjVal))
    as [[c1 m1] | ] eqn:Eo; [discriminate |].
  destruct (refuses solver (session_log g) (Model_get GRB_DoubleAttr_ObjBound))
    as [[c2 m2] | ] eqn:Eb; [discriminate |].
  inversion Ho; inversion Hb; subst g1 g2 o b.
  unfold bind. rewrite ask_answer, Eo, ask_answer, Eb, ask_answer, Eo.
  reflexivity.
Qed.

Example relative_gap_3_1 :
  relative_gap (of_Z 3) (of_Z 1) = S754_finite false 4503599627370496 (-53).
Proof. vm_compute. reflexivity. Qed.

Lemma gap_is_relative_gap_witness :
  gap solved_after_optimize solved_session
  = Normal (relative_gap (of_Z 3) (of_Z 1)) solved_session.
Proof.
  apply (@gap_is_relative_gap solved_after_optimize
           solved_session solved_session solved_session (of_Z 3) (of_Z 1));
    reflexivity.
Defined.

(** ** Emission of constraints *)

Lemma var_at_state i g v g' : var_at i g = Normal v g' -> g' = g.
Proof.
  unfold var_at.
  destruct (gurobiVariables_ g) as [vars | ]; [| discriminate].
  destruct (i <? 0); [discriminate |].
  destruct (nth_error vars (Z.to_nat i)); [| discriminate].
  intros H; inversion H; reflexivity.
Qed.

Lemma sum_terms_state indices : forall coefficient e g e' g',
  sum_terms indices coefficient e g = Normal e' g' -> g' = g.
Proof.
  induction indices as [| vi indices IH]; intros coefficient e g e' g' H; simpl in H.
  - inversion H; reflexivity.
  - destruct coefficient as [| c coefficient]; [discriminate |].
    unfold bind in H.
    destruct (var_at (to_size_t vi) g) as [v g1 | | ] eqn:Ev; try discriminate.
    apply var_at_state in Ev. subst g1. eapply IH; eassumption.
Qed.

(** C2.  With the expression built and a solver that accepts the calls, a
    constraint addition (static or lazy) with [lowerBound == upperBound]
    emits exactly one equality constraint; with [lowerBound < upperBound] it
    emits the lower-bound side unless [lowerBound] is negative infinity,
    then the upper-bound side unless [upperBound] is positive infinity, and
    nothing else. *)
Theorem constraint_emission
    (solver : Solver) (D : Type) (c : Callback D)
    (indices : list Z) (coefficient : list double)
    (lowerBound upperBound : double) (expression : GRBLinExpr) :
  sum_terms indices coefficient GRBLinExpr_empty (gurobi_ c)
    = Normal expression (gurobi_ c) ->
  (forall l k, rejects solver l k = None) ->
  exists (g' : Gurobi) (c' : Callback D) (static lazy : list call),
    addConstraint solver indices coefficient lowerBound upperBound (gurobi_ c)
      = Normal tt g'
    /\ session_log g' = session_log (gurobi_ c) ++ static
    /\ addLazyConstraint solver indices coefficient lowerBound upperBound c
      = Normal tt c'
    /\ session_log (gurobi_ c') = session_log (gurobi_ c) ++ lazy
    /\ (eqb lowerBound upperBound = true ->
        static = [equality_constraint expression lowerBound]
        /\ lazy = [lazy_equality expression lowerBound])
    /\ (ltb lowerBound upperBound = true ->
        static = unless (is_neg_infinity lowerBound)
                        (lower_constraint expression lowerBound)
                 ++ unless (is_pos_infinity upperBound)
                           (upper_constraint expression upperBound)
        /\ lazy = unless (is_neg_infinity lowerBound)
                         (lazy_lower expression lowerBound)
                  ++ unless (is_pos_infinity upperBound)
                            (lazy_upper expression upperBound)
        /\ (List.length static <= 2)%nat /\ (List.length lazy <= 2)%nat).
Proof.
  intros Hsum Hacc.
  unfold addConstraint, addLazyConstraint, addLazy, GRBModel_addConstr,
    on_gurobi, on_model, issue, session_log.
  unfold_monad. rewrite Hsum.
  rewrite neqb_neg_infinity, neqb_infinity.
  destruct (eqb lowerBound upperBound) eqn:Eeq.
  - rewrite !Hacc. simpl.
    do 4 eexists.
    split; [reflexivity |]. split; [simpl; reflexivity |].
    split; [reflexivity |]. split; [simpl; reflexivity |].
    split.
    + intros _. split; reflexivity.
    + intros Hlt. apply ltb_not_eqb in Hlt. congruence.
  - destruct (is_neg_infinity lowerBound), (is_pos_infinity upperBound);
      simpl; rewrite ?Hacc; simpl; rewrite ?Hacc; simpl;
      do 4 eexists;
      (split; [reflexivity |]);
      (split; [simpl; try rewrite <- app_assoc; try (symmetry; apply app_nil_r);
               reflexivity |]);
      (split; [reflexivity |]);
      (split; [simpl; try rewrite <- app_assoc; try (symmetry; apply app_nil_r);
               reflexivity |]);
      (split; [discriminate |]);
      intros _; simpl; repeat split; lia.
Qed.

Lemma constraint_emission_witness :
  exists g',
    addConstraint accepting [0; 1] [one; one] (neg infinity) one two_variables
    = Normal tt g'
    /\ session_log g'
       = session_log two_variables
         ++ [upper_constraint
               {| constant := zero; terms := [(one, 0%nat); (one, 1%nat)] |} one].
Proof.
  destruct (@constraint_emission accepting unit (self idle_callback)
              [0; 1] [one; one] (neg infinity) one
              {| constant := zero; terms := [(one, 0%nat); (one, 1%nat)] |})
    as (g' & c' & static & lazy & Ha & Hl & _ & _ & _ & Hlt).
  - reflexivity.
  - intros l k. reflexivity.
  - exists g'. split; [exact Ha |].
    rewrite Hl. destruct (Hlt eq_refl) as (-> & _). reflexivity.
Defined.

(** ** Indices are not validated *)

Lemma var_at_in_array i g :
  var_at i g = if in_array g i then Normal (handle_at g i) g else Undefined.
Proof.
  unfold var_at, in_array, handle_at.
  destruct (gurobiVariables_ g) as [vars | ]; [| reflexivity].
  destruct (Z.ltb_spec i 0) as [Hneg | Hpos].
  - destruct (Z.leb_spec 0 i); [lia | reflexivity].
  - destruct (Z.leb_spec 0 i); [| lia].
    destruct (Z.ltb_spec i (Z.of_nat (List.length vars))) as [Hlt | Hge]; simpl.
    + destruct (nth_error vars (Z.to_nat i)) as [v | ] eqn:E.
      * apply (nth_error_nth _ _ 0%nat) in E. subst v. reflexivity.
      * apply nth_error_None in E. lia.
    + destruct (nth_error vars (Z.to_nat i)) as [v | ] eqn:E; [| reflexivity].
      assert (nth_error vars (Z.to_nat i) <> None) as Hn by congruence.
      apply nth_error_Some in Hn. lia.
Qed.

Lemma sum_terms_in_range g indices : forall coefficient e,
  (List.length indices <= List.length coefficient)%nat ->
  forallb (fun i => in_array g (to_size_t i)) indices = true ->
  sum_terms indices coefficient e g =
  Normal {| constant := constant e;
            terms := terms e ++ terms_of g indices coefficient |} g.
Proof.
  unfold terms_of.
  induction indices as [| vi indices IH]; intros coefficient e Hlen Hall.
  - simpl. destruct coefficient; simpl; rewrite app_nil_r; destruct e; reflexivity.
  - destruct coefficient as [| c coefficient]; [simpl in Hlen; lia |].
    simpl in Hall. apply andb_prop in Hall. destruct Hall as [Hvi Hall].
    simpl. unfold bind. rewrite var_at_in_array, Hvi.
    rewrite IH by (simpl in Hlen; try lia; assumption).
    simpl. rewrite <- app_assoc. reflexivity.
Qed.

Lemma sum_terms_out_of_range g indices : forall coefficient e,
  forallb (fun i => in_array g (to_size_t i)) indices = false ->
  sum_terms indices coefficient e g = Undefined.
Proof.
  induction indices as [| vi indices IH]; intros coefficient e Hex.
  - discriminate.
  - simpl in Hex. destruct coefficient as [| c coefficient]; [reflexivity |].
    simpl. unfold bind. rewrite var_at_in_array.
    destruct (in_array g (to_size_t vi)); [| reflexivity].
    apply IH. exact Hex.
Qed.

(** C5, as the code has it.  Constraint addition does not validate the
    indices: each is converted to [size_t] and used as a position in
    [gurobiVariables_].  When every index lies in the array (and there is a
    coefficient for each), the expression has one term per index, built from
    the handle at that position; when some index lies outside, the static and
    the lazy addition both have undefined behaviour and raise nothing. *)
Theorem constraint_indices_unchecked
    (solver : Solver) (D : Type) (c : Callback D)
    (indices : list Z) (coefficient : list double) (lowerBound upperBound : double) :
  (List.length indices <= List.length coefficient)%nat ->
  if forallb (fun i => in_array (gurobi_ c) (to_size_t i)) indices
  then sum_terms indices coefficient GRBLinExpr_empty (gurobi_ c)
       = Normal {| constant := zero;
                   terms := terms_of (gurobi_ c) indices coefficient |} (gurobi_ c)
  else addConstraint solver indices coefficient lowerBound upperBound (gurobi_ c)
       = Undefined
       /\ addLazyConstraint solver indices coefficient lowerBound upperBound c
          = Undefined.
Proof.
  intros Hlen.
  destruct (forallb _ indices) eqn:Hall.
  - rewrite sum_terms_in_range by assumption. reflexivity.
  - unfold addConstraint, addLazyConstraint, on_gurobi. unfold_monad.
    rewrite sum_terms_out_of_range by assumption. split; reflexivity.
Qed.

Lemma constraint_indices_unchecked_witness :
  addConstraint accepting [5] [one] zero one (gurobi_ (self idle_callback))
  = Undefined
  /\ addLazyConstraint accepting [5] [one] zero one (self idle_callback)
     = Undefined.
Proof.
  apply (@constraint_indices_unchecked accepting unit (self idle_callback)
           [5] [one] zero one).
  simpl. lia.
Defined.

(** C5 as stated fails: on a session with two variables, a constraint on
    index 5 is not rejected with an exception. *)
Lemma out_of_range_index_not_rejected :
  ~ throws (addConstraint accepting [5] [one] zero one two_variables)
  /\ ~ throws (addLazyConstraint accepting [5] [one] zero one (self idle_callback)).
Proof.
  split; intros (e & s & H); vm_compute in H; discriminate.
Qed.

(** ** Start values *)

Section StartValues.

Variable solver : Solver.
Hypothesis accepts : forall l k, rejects solver l k = None.

Lemma after_calls_app cs cs' g :
  after_calls cs' (after_calls cs g) = after_calls (cs ++ cs') g.
Proof.
  unfold after_calls, set_gurobiModel_, session_log. simpl.
  rewrite <- app_assoc. reflexivity.
Qed.

Lemma after_calls_nil g : after_calls [] g = g.
Proof.
  unfold after_calls, set_gurobiModel_, session_log. rewrite app_nil_r.
  destruct g as [[n l] vs ob k]. reflexivity.
Qed.

Lemma var_at_after_calls cs i g v :
  var_at i g = Normal v g ->
  var_at i (after_calls cs g) = Normal v (after_calls cs g).
Proof.
  unfold var_at. simpl.
  destruct (gurobiVariables_ g) as [vars | ]; [| discriminate].
  destruct (i <? 0); [discriminate |].
  destruct (nth_error vars (Z.to_nat i)); [| discriminate].
  intros H; inversion H; reflexivity.
Qed.

(** The loop over the handles [vs] that remain, starting at position [j]. *)
Lemma setStart_loop_enough vs : forall j values g,
  (List.length vs <= List.length values)%nat ->
  (forall k v, nth_error vs k = Some v ->
               var_at (j + Z.of_nat k) g = Normal v g) ->
  setStart_loop solver (List.length vs) j values g
  = Normal tt (after_calls (start_calls vs values) g).
Proof.
  induction vs as [| v vs IH]; intros j values g Hlen Hvars.
  - simpl. unfold ret, start_calls. simpl. rewrite after_calls_nil. reflexivity.
  - destruct values as [| x values]; [simpl in Hlen; lia |].
    simpl. unfold bind.
    pose proof (Hvars 0%nat v eq_refl) as H0. rewrite Z.add_0_r in H0.
    rewrite H0. rewrite issue_accepted by apply accepts.
    fold (after_calls [Var_set_double v GRB_DoubleAttr_Start x] g).
    rewrite IH.
    + rewrite after_calls_app. reflexivity.
    + simpl in Hlen. lia.
    + intros k w Hk. apply var_at_after_calls.
      replace (j + 1 + Z.of_nat k) with (j + Z.of_nat (S k)) by lia.
      apply Hvars. exact Hk.
Qed.

Lemma setStart_loop_short remaining : forall j values g,
  (List.length values < remaining)%nat ->
  (forall k, (k < List.length values)%nat ->
             exists v, var_at (j + Z.of_nat k) g = Normal v g) ->
  setStart_loop solver remaining j values g = Undefined.
Proof.
  induction remaining as [| remaining IH]; intros j values g Hlen Hvars.
  - lia.
  - destruct values as [| x values]; [reflexivity |].
    simpl. unfold bind.
    destruct (Hvars 0%nat) as [v H0]; [simpl; lia |].
    rewrite Z.add_0_r in H0. rewrite H0.
    rewrite issue_accepted by apply accepts.
    fold (after_calls [Var_set_double v GRB_DoubleAttr_Start x] g).
    apply IH.
    + simpl in Hlen. lia.
    + intros k Hk. destruct (Hvars (S k)) as [w Hw]; [simpl; lia |].
      exists w. apply var_at_after_calls.
      replace (j + 1 + Z.of_nat k) with (j + Z.of_nat (S k)) by lia.
      exact Hw.
Qed.

Lemma var_at_nth g vars k v :
  gurobiVariables_ g = Some vars ->
  nth_error vars k = Some v ->
  var_at (Z.of_nat k) g = Normal v g.
Proof.
  intros Hv Hk. unfold var_at. rewrite Hv.
  destruct (Z.ltb_spec (Z.of_nat k) 0); [lia |].
  rewrite Nat2Z.id, Hk. reflexivity.
Qed.

End StartValues.

(** C8, as the code has it.  [setStart] takes an iterator and no length.  On
    a session whose array holds [nVariables_] handles and with a solver that
    accepts the calls, it reads the first [nVariables_] values and sets them
    as start values in index order, ignoring any further value; if fewer
    values can be read the behaviour is undefined.  No length is compared
    and no error is raised. *)
Theorem setStart_reads_nVariables
    (solver : Solver) (g : Gurobi) (vars : list GRBVar) (values : list double) :
  gurobiVariables_ g = Some vars ->
  nVariables_ g = Z.of_nat (List.length vars) ->
  (forall l k, rejects solver l k = None) ->
  if (List.length vars <=? List.length values)%nat
  then setStart solver values g
       = Normal tt (after_calls (start_calls vars values) g)
  else setStart solver values g = Undefined.
Proof.
  intros Hvars Hn Hacc.
  unfold setStart, bind, gets. rewrite Hn, Nat2Z.id.
  destruct (Nat.leb_spec (List.length vars) (List.length values)) as [Hle | Hgt].
  - apply setStart_loop_enough; try assumption.
    intros k v Hk. simpl. eapply var_at_nth; eassumption.
  - apply setStart_loop_short; try assumption.
    intros k Hk.
    destruct (nth_error vars k) as [v | ] eqn:E.
    + exists v. simpl. eapply var_at_nth; eassumption.
    + apply nth_error_None in E. lia.
Qed.

Lemma setStart_reads_nVariables_witness :
  setStart accepting [one; zero; one] two_variables
  = Normal tt (after_calls [Var_set_double 0%nat GRB_DoubleAttr_Start one;
                            Var_set_double 1%nat GRB_DoubleAttr_Start zero]
                           two_variables).
Proof.
  apply (@setStart_reads_nVariables accepting two_variables
           [0%nat; 1%nat] [one; zero; one]).
  - reflexivity.
  - reflexivity.
  - intros l k. reflexivity.
Defined.

(** C8 as stated fails: three values for a session with two variables are
    accepted, and so is the call on a longer sequence in general. *)
Lemma setStart_accepts_other_length :
  nVariables_ two_variables = 2
  /\ List.length [one; zero; one] <> 2%nat
  /\ ~ throws (setStart accepting [one; zero; one] two_variables).
Proof.
  split; [reflexivity |]. split; [discriminate |].
  intros (e & s & H). vm_compute in H. discriminate.
Qed.

(** ** Adding variables *)

(** One call of [addVariables], accepted by the solver: the model grows by
    [n] variables, the count [nVariables_] by [n], the objective by the new
    terms, and [gurobiVariables_] is the array of the [n] new handles only. *)
Lemma addVariables_accepted
    (solver : Solver) (n : nat) (coefficients : list double) (g g' : Gurobi) :
  Z.of_nat n < 2 ^ 31 ->
  addVariables solver (Z.of_nat n) coefficients g = Normal tt g' ->
  gurobiVariables_ g' = Some (seq (numVars (gurobiModel_ g)) n)
  /\ numVars (gurobiModel_ g') = (numVars (gurobiModel_ g) + n)%nat
  /\ nVariables_ g' = to_size_t (nVariables_ g + Z.of_nat n).
Proof.
  intros Hn.
  assert (Hint : int_of_size_t (Z.of_nat n) = Z.of_nat n).
  { unfold int_of_size_t. rewrite Z.mod_small; lia. }
  unfold addVariables. rewrite Hint.
  unfold GRBModel_addVars, on_model, issue. unfold_monad.
  rewrite Nat2Z.id. simpl.
  repeat match goal with
  | |- context [match rejects ?s ?l ?c with _ => _ end] =>
      destruct (rejects s l c) as [[? ?] | ]; simpl; try discriminate
  | |- context [match addTerms ?e ?cs ?vs ?k with _ => _ end] =>
      destruct (addTerms e cs vs k); simpl; try discriminate
  end.
  intros H; inversion H; subst g'; simpl. repeat split.
Qed.

(** C6, where the code departs from it.  After two calls of [addVariables]
    with one variable each, the solver holds both variables, the objective
    has both terms and [nVariables_] is 2; but [gurobiVariables_] holds the
    handle of the second variable only.  Index 0 now addresses the second
    variable (while [getVar(0)], which the callback's [label] and [setLabel]
    use, is the first), index 1 lies outside the array, and [setStart],
    which runs over [nVariables_] positions, leaves the array. *)
Theorem addVariables_twice_drops_first_batch :
  exists g,
    two_batches_session accepting = Normal tt g
    /\ numVars (gurobiModel_ g) = 2%nat
    /\ nVariables_ g = 2
    /\ terms (gurobiObjective_ g) = [(one, 0%nat); (of_Z 2, 1%nat)]
    /\ gurobiVariables_ g = Some [1%nat]
    /\ var_at 0 g = Normal 1%nat g
    /\ on_model (GRBModel_getVar accepting 0) g = Normal 0%nat g
    /\ var_at 1 g = Undefined
    /\ label accepting 1 g = Undefined
    /\ setBranchPrio accepting 1 7 g = Undefined
    /\ addConstraint accepting [0; 1] [one; one] (neg infinity) one g = Undefined
    /\ setStart accepting [zero; one] g = Undefined.
Proof.
  eexists. split; [vm_compute; reflexivity |].
  repeat split; vm_compute; reflexivity.
Qed.

(** ** Post-solve accessors *)

(** C7, as the code has it.  The accessors keep no record of whether
    [optimize] has run: each forwards to the solver and lets its exception
    pass.  When the solver refuses the attributes [ObjVal], [ObjBound] and
    [X], [objective()], [bound()] and [gap()] throw the solver's exception,
    and so does [label(i)] when [i] lies in [gurobiVariables_]; otherwise
    [label(i)] has undefined behaviour. *)
Theorem accessors_forward_refusal
    (solver : Solver) (g : Gurobi)
    (objval objbound : Z * string) (x : GRBVar -> Z * string) :
  refuses solver (session_log g) (Model_get GRB_DoubleAttr_ObjVal) = Some objval ->
  refuses solver (session_log g) (Model_get GRB_DoubleAttr_ObjBound) = Some objbound ->
  (forall v, refuses solver (session_log g) (Var_get v GRB_DoubleAttr_X) = Some (x v)) ->
  objective solver g = Throw (GRBException (fst objval) (snd objval)) g
  /\ bound solver g = Throw (GRBException (fst objbound) (snd objbound)) g
  /\ (exists code msg, gap solver g = Throw (GRBException code msg) g)
  /\ forall i,
       label solver i g =
       if in_array g i
       then Throw (GRBException (fst (x (handle_at g i))) (snd (x (handle_at g i)))) g
       else Undefined.
Proof.
  intros Ho Hb Hx.
  assert (Hobj : objective solver g = Throw (GRBException (fst objval) (snd objval)) g).
  { unfold objective. rewrite ask_answer, Ho. destruct objval; reflexivity. }
  split; [exact Hobj |].
  split.
  { unfold bound. rewrite ask_answer, Hb. destruct objbound; reflexivity. }
  split.
  { exists (fst objval), (snd objval). unfold gap, bind. rewrite Hobj. reflexivity. }
  intros i. unfold label, bind. rewrite var_at_in_array.
  destruct (in_array g i); [| reflexivity].
  rewrite ask_answer, Hx. destruct (x (handle_at g i)); reflexivity.
Qed.

Lemma accessors_forward_refusal_witness :
  objective solved_after_optimize unsolved_session
  = Throw (GRBException 10005 "Unable to retrieve attribute") unsolved_session
  /\ bound solved_after_optimize unsolved_session
     = Throw (GRBException 10005 "Unable to retrieve attribute") unsolved_session
  /\ label solved_after_optimize 1 unsolved_session
     = Throw (GRBException 10005 "Unable to retrieve attribute") unsolved_session
  /\ label solved_after_optimize 2 unsolved_session = Undefined.
Proof.
  destruct (@accessors_forward_refusal solved_after_optimize unsolved_session
              (10005, "Unable to retrieve attribute"%string)
              (10005, "Unable to retrieve attribute"%string)
              (fun _ => (10005, "Unable to retrieve attribute"%string)))
    as (Ho & Hb & _ & Hl).
  - reflexivity.
  - reflexivity.
  - intros v. reflexivity.
  - split; [exact Ho |]. split; [exact Hb |].
    split; [exact (Hl 1) | exact (Hl 2)].
Defined.

(** C7 as stated fails for [label]: on a session without variables, before
    any [optimize], [label(0)] reads through the null [gurobiVariables_] and
    raises nothing. *)
Lemma label_before_optimize_not_an_exception :
  gurobiVariables_ no_variables = None
  /\ existsb is_optimize (session_log no_variables) = false
  /\ label solved_after_optimize 0 no_variables = Undefined
  /\ ~ throws (label solved_after_optimize 0 no_variables).
Proof.
  repeat split.
  intros (e & s & H). vm_compute in H. discriminate.
Qed.

(** ** The dispatcher *)

Section Dispatcher.

Variable GRB_INFINITY : double.
Variable D : Type.
Variable separate heuristic : M (Callback D) unit.

Local Abbreviation callback' := (callback GRB_INFINITY separate heuristic).
Local Abbreviation dispatch' := (dispatch GRB_INFINITY separate heuristic).
Local Abbreviation dispatch_all' := (dispatch_all GRB_INFINITY separate heuristic).

Local Abbreviation after_routine' := (after_routine separate heuristic).

Lemma callback_MIPSOL d :
  where_ (self d) = GRB_CB_MIPSOL ->
  callback' d = after_routine' Separation true d.
Proof.
  intros Hw.
  unfold callback, callback_try, where_is, invoke, on_self, after_routine, routine_body.
  unfold_monad. known_where Hw.
  destruct (separate (self d)) as [[] c' | e c' | ]; try reflexivity.
  destruct e; reflexivity.
Qed.

Lemma callback_MIPNODE d :
  where_ (self d) = GRB_CB_MIPNODE ->
  callback' d = if flag d then after_routine' Heuristic false d else Normal tt d.
Proof.
  intros Hw.
  unfold callback, callback_try, where_is, invoke, on_self, after_routine, routine_body, flag.
  unfold_monad. known_where Hw.
  destruct (feasibleHeuristic_ (self d)); [| reflexivity].
  simpl.
  destruct (heuristic (self d)) as [[] c' | e c' | ]; try reflexivity.
  destruct e; reflexivity.
Qed.

Lemma callback_MIP d best bnd :
  where_ (self d) = GRB_CB_MIP ->
  cb_info (cbdata_ (self d)) GRB_CB_MIP_OBJBST = inr best ->
  cb_info (cbdata_ (self d)) GRB_CB_MIP_OBJBND = inr bnd ->
  callback' d =
  Normal tt {| self := set_objectiveBound_ (translate_bound GRB_INFINITY bnd)
                         (set_objectiveBest_ (translate_best GRB_INFINITY best) (self d));
               invoked := invoked d |}.
Proof.
  intros Hw Hbest Hbnd.
  unfold callback, callback_try, where_is, on_self, getDoubleInfo,
    translate_best, translate_bound.
  unfold_monad. known_where Hw. rewrite Hbest. simpl.
  destruct (eqb best GRB_INFINITY); simpl; rewrite Hbnd; simpl;
    destruct (eqb bnd (neg GRB_INFINITY)); known_where Hw; reflexivity.
Qed.

Lemma callback_elsewhere d :
  where_ (self d) <> GRB_CB_MIP ->
  where_ (self d) <> GRB_CB_MIPSOL ->
  where_ (self d) <> GRB_CB_MIPNODE ->
  callback' d = Normal tt d.
Proof.
  intros H1 H2 H3.
  unfold callback, callback_try, where_is. unfold_monad.
  destruct (where_ (self d)) eqn:Hw; known_where Hw; try reflexivity; congruence.
Qed.

Lemma dispatch_with_event ev d :
  dispatch' ev d = callback' (with_event ev d).
Proof. reflexivity. Qed.

Lemma dispatch_step ev d d1 :
  dispatch' ev d = Normal tt d1 ->
  match ev_where ev with
  | GRB_CB_MIPSOL => flag d1 = true /\ invoked d1 = invoked d ++ [Separation]
  | GRB_CB_MIPNODE =>
      flag d1 = false
      /\ invoked d1 = invoked d ++ (if flag d then [Heuristic] else [])
  | _ => flag d1 = flag d /\ invoked d1 = invoked d
  end.
Proof.
  rewrite dispatch_with_event.
  assert (Hw : where_ (self (with_event ev d)) = ev_where ev) by reflexivity.
  assert (Hf : flag (with_event ev d) = flag d) by reflexivity.
  assert (Hi : invoked (with_event ev d) = invoked d) by reflexivity.
  revert Hw Hf Hi. generalize (with_event ev d). intros d0 Hw Hf Hi.
  destruct (ev_where ev) eqn:Ew.
  4: { (* GRB_CB_MIP *)
    unfold callback, callback_try, where_is, on_self, getDoubleInfo.
    unfold_monad. known_where Hw.
    repeat match goal with
    | |- context [match cb_info ?a ?b with _ => _ end] =>
        destruct (cb_info a b) as [[? ?] | ?]; known_where Hw
    | |- context [if eqb ?x ?y then _ else _] =>
        destruct (eqb x y); known_where Hw
    end;
    intros H; try discriminate; inversion H;
    unfold flag in *; simpl; split; congruence. }
  4: { (* GRB_CB_MIPSOL *)
    rewrite callback_MIPSOL by assumption. unfold after_routine.
    destruct (routine_body separate heuristic Separation (self d0)) as [[] c' | e c' | ];
      try discriminate.
    intros H; inversion H; simpl. rewrite Hi. split; reflexivity. }
  4: { (* GRB_CB_MIPNODE *)
    rewrite callback_MIPNODE by assumption. rewrite Hf.
    destruct (flag d).
    - unfold after_routine.
      destruct (routine_body separate heuristic Heuristic (self d0)) as [[] c' | e c' | ];
        try discriminate.
      intros H; inversion H; simpl. rewrite Hi. split; reflexivity.
    - intros H; inversion H; subst d1. rewrite Hi, app_nil_r.
      split; [exact Hf | reflexivity]. }
  all: rewrite callback_elsewhere by congruence;
    intros H; inversion H; subst d1; split; assumption.
Qed.

Lemma dispatch_all_app evs evs' d :
  dispatch_all' (evs ++ evs') d
  = bind (dispatch_all' evs) (fun _ => dispatch_all' evs') d.
Proof.
  revert d. induction evs as [| ev evs IH]; intros d.
  - reflexivity.
  - simpl. unfold bind.
    destruct (dispatch' ev d) as [[] d1 | e d1 | ]; try reflexivity.
    rewrite IH. reflexivity.
Qed.

Lemma dispatch_all_last evs ev d d' :
  dispatch_all' (evs ++ [ev]) d = Normal tt d' ->
  exists d1, dispatch_all' evs d = Normal tt d1 /\ dispatch' ev d1 = Normal tt d'.
Proof.
  rewrite dispatch_all_app. unfold bind at 1.
  destruct (dispatch_all' evs d) as [[] d1 | e d1 | ]; try discriminate.
  simpl. unfold bind, ret.
  destruct (dispatch' ev d1) as [[] d2 | e d2 | ] eqn:E; try discriminate.
  intros H. exists d1. split; [reflexivity | congruence].
Qed.

Lemma dispatch_all_automaton evs : forall d d',
  dispatch_all' evs d = Normal tt d' ->
  flag d' = expected_flag (flag d) (map ev_where evs)
  /\ invoked d' = invoked d ++ expected_routines (flag d) (map ev_where evs).
Proof.
  induction evs as [| ev evs IH]; intros d d' H.
  - inversion H; subst. simpl. rewrite app_nil_r. split; reflexivity.
  - simpl in H. unfold bind in H.
    destruct (dispatch' ev d) as [[] d1 | e d1 | ] eqn:E1; try discriminate.
    apply dispatch_step in E1. apply IH in H. destruct H as [Hf Hi].
    simpl. destruct (ev_where ev); destruct E1 as [E1f E1i];
      rewrite Hf, Hi, E1f, E1i; rewrite <- ?app_assoc; split; reflexivity.
Qed.

(** A sequence of dispatches returns when the routines return and the
    progress values can be read. *)
Lemma dispatch_all_returns evs :
  (forall c, exists c', separate c = Normal tt c') ->
  (forall c, exists c', heuristic c = Normal tt c') ->
  (forall ev what, In ev evs -> exists x, cb_info (ev_data ev) what = inr x) ->
  forall d, exists d', dispatch_all' evs d = Normal tt d'.
Proof.
  intros Hsep Hheu. induction evs as [| ev evs IH]; intros Hinfo d.
  - exists d. reflexivity.
  - assert (Hstep : exists d1, dispatch' ev d = Normal tt d1).
    { rewrite dispatch_with_event.
      assert (Hw : where_ (self (with_event ev d)) = ev_where ev) by reflexivity.
      destruct (ev_where ev) eqn:Ew.
      4: { destruct (Hinfo ev GRB_CB_MIP_OBJBST (or_introl eq_refl)) as [best Hbest].
           destruct (Hinfo ev GRB_CB_MIP_OBJBND (or_introl eq_refl)) as [bnd Hbnd].
           eexists. eapply callback_MIP; eassumption. }
      4: { rewrite callback_MIPSOL by assumption. unfold after_routine. simpl.
           destruct (Hsep (set_event ev (self d))) as [c' ->]. eexists. reflexivity. }
      4: { rewrite callback_MIPNODE by assumption.
           destruct (flag (with_event ev d)); [| eexists; reflexivity].
           unfold after_routine. simpl.
           destruct (Hheu (set_event ev (self d))) as [c' ->]. eexists. reflexivity. }
      all: eexists; apply callback_elsewhere; congruence. }
    destruct Hstep as [d1 Hd1].
    destruct (IH (fun ev' what Hin => Hinfo ev' what (or_intror Hin)) d1) as [d' Hd'].
    exists d'. simpl. unfold bind. rewrite Hd1. exact Hd'.
Qed.

End Dispatcher.

(** In the routines the protocol calls, the heuristic occurs at most once
    per separation, plus once if the flag was set at the start. *)
Lemma expected_routines_heuristic_bound ws : forall b,
  (List.length (filter is_Heuristic (expected_routines b ws))
   <= List.length (filter is_Separation (expected_routines b ws))
      + (if b then 1 else 0))%nat.
Proof.
  induction ws as [| w ws IH]; intros b.
  - simpl. lia.
  - destruct w; simpl; try apply IH.
    + specialize (IH true). simpl in IH. lia.
    + specialize (IH false). destruct b; simpl in *; lia.
Qed.


(** ** The heuristic flag *)

(** C1, as the code has it.  In every sequence of dispatches that return,
    the last dispatch [ev] behaves as follows.  With [where == GRB_CB_MIPSOL]
    the separation routine is called once and the flag is true afterwards;
    with [where == GRB_CB_MIPNODE] the flag is false afterwards, and the
    heuristic routine has been called once if the flag was true and not at
    all if it was false; any other dispatch calls no routine and keeps the
    flag.  Over the whole sequence, the flag and the calls are those of the
    two-state automaton, in which consecutive candidate events keep the flag
    true and the heuristic runs at most once per separation. *)
Theorem heuristic_flag_protocol
    (GRB_INFINITY : double) (D : Type) (separate heuristic : M (Callback D) unit)
    (evs : list SearchEvent) (ev : SearchEvent) (d d' : Dispatch D) :
  dispatch_all GRB_INFINITY separate heuristic (evs ++ [ev]) d = Normal tt d' ->
  exists d1,
    dispatch_all GRB_INFINITY separate heuristic evs d = Normal tt d1
    /\ dispatch GRB_INFINITY separate heuristic ev d1 = Normal tt d'
    /\ match ev_where ev with
       | GRB_CB_MIPSOL =>
           flag d' = true /\ invoked d' = invoked d1 ++ [Separation]
       | GRB_CB_MIPNODE =>
           flag d' = false
           /\ invoked d' = invoked d1 ++ (if flag d1 then [Heuristic] else [])
       | _ => flag d' = flag d1 /\ invoked d' = invoked d1
       end
    /\ flag d' = expected_flag (flag d) (map ev_where (evs ++ [ev]))
    /\ invoked d' = invoked d ++ expected_routines (flag d) (map ev_where (evs ++ [ev]))
    /\ (List.length (filter is_Heuristic
                       (expected_routines (flag d) (map ev_where (evs ++ [ev]))))
        <= List.length (filter is_Separation
                          (expected_routines (flag d) (map ev_where (evs ++ [ev]))))
           + (if flag d then 1 else 0))%nat.
Proof.
  intros Hrun.
  destruct (dispatch_all_last _ _ _ _ _ _ Hrun) as (d1 & Hevs & Hev).
  exists d1. split; [exact Hevs |]. split; [exact Hev |].
  split; [apply (dispatch_step _ _ _ _ _ Hev) |].
  destruct (dispatch_all_automaton _ _ _ _ _ Hrun) as [Hf Hi].
  split; [exact Hf |]. split; [exact Hi |].
  apply expected_routines_heuristic_bound.
Qed.

Lemma heuristic_flag_protocol_witness :
  exists d1 d',
    dispatch_all GRB_INFINITY_1e100 do_nothing do_nothing
      [event GRB_CB_MIPSOL; event GRB_CB_MIPSOL] idle_callback = Normal tt d1
    /\ dispatch GRB_INFINITY_1e100 do_nothing do_nothing (event GRB_CB_MIPNODE) d1
       = Normal tt d'
    /\ flag d1 = true
    /\ flag d' = false
    /\ invoked d' = [Separation; Separation; Heuristic].
Proof.
  destruct (@heuristic_flag_protocol GRB_INFINITY_1e100 unit do_nothing do_nothing
              [event GRB_CB_MIPSOL; event GRB_CB_MIPSOL] (event GRB_CB_MIPNODE)
              idle_callback
              (with_event (event GRB_CB_MIPNODE)
                 {| self := set_feasibleHeuristic_ false (self idle_callback);
                    invoked := [Separation; Separation; Heuristic] |}))
    as (d1 & Hevs & Hev & Hstep & Hf & Hi & _).
  - reflexivity.
  - exists d1. eexists. split; [exact Hevs |]. split; [exact Hev |].
    split; [| split; reflexivity].
    simpl in Hevs. inversion Hevs. reflexivity.
Defined.

(** C1 as stated fails in its last part: two candidate events in a row
    leave the flag true throughout, no reset lies between them. *)
Lemma flag_true_across_consecutive_candidates :
  ~ flag_reset_between_candidates GRB_INFINITY_1e100 do_nothing do_nothing.
Proof.
  intros H.
  eapply (H (event GRB_CB_MIPSOL) (event GRB_CB_MIPSOL) idle_callback).
  - reflexivity.
  - reflexivity.
  - reflexivity.
  - reflexivity.
  - split; reflexivity.
Qed.

(** ** Progress events *)

(** C3, as the code has it.  On a dispatch with [where == GRB_CB_MIP] whose
    two values can be read, [objectiveBest_] becomes the reported objective,
    with [GRB_INFINITY] replaced by positive infinity, and [objectiveBound_]
    the reported bound, with [-GRB_INFINITY] replaced by negative infinity;
    every other value, the oppositely signed sentinel included, is stored as
    reported.  No routine is called; flag and session stay as they are. *)
Theorem progress_event_bookkeeping
    (GRB_INFINITY : double) (D : Type) (separate heuristic : M (Callback D) unit)
    (d : Dispatch D) (best bnd : double) :
  where_ (self d) = GRB_CB_MIP ->
  cb_info (cbdata_ (self d)) GRB_CB_MIP_OBJBST = inr best ->
  cb_info (cbdata_ (self d)) GRB_CB_MIP_OBJBND = inr bnd ->
  exists d',
    callback GRB_INFINITY separate heuristic d = Normal tt d'
    /\ objectiveBest_ (self d') = (if eqb best GRB_INFINITY then infinity else best)
    /\ objectiveBound_ (self d')
       = (if eqb bnd (neg GRB_INFINITY) then neg infinity else bnd)
    /\ flag d' = flag d
    /\ invoked d' = invoked d
    /\ gurobi_ (self d') = gurobi_ (self d).
Proof.
  intros Hw Hbest Hbnd.
  eexists. split; [apply callback_MIP; eassumption |].
  repeat split.
Qed.

Lemma progress_event_bookkeeping_witness :
  exists d',
    dispatch GRB_INFINITY_1e100 do_nothing do_nothing
      (progress_event GRB_INFINITY_1e100 (of_Z 7)) idle_callback = Normal tt d'
    /\ objectiveBest_ (self d') = infinity
    /\ objectiveBound_ (self d') = of_Z 7.
Proof.
  destruct (@progress_event_bookkeeping GRB_INFINITY_1e100 unit do_nothing do_nothing
              (with_event (progress_event GRB_INFINITY_1e100 (of_Z 7)) idle_callback)
              GRB_INFINITY_1e100 (of_Z 7))
    as (d' & Hrun & Hbest & Hbnd & _).
  - reflexivity.
  - reflexivity.
  - reflexivity.
  - exists d'. split; [exact Hrun |]. split; [exact Hbest | exact Hbnd].
Defined.

(** C3 as stated fails: a reported objective of [-GRB_INFINITY] and a
    reported bound of [+GRB_INFINITY] are stored as the finite sentinels. *)
Lemma opposite_sentinels_not_translated :
  exists d',
    dispatch GRB_INFINITY_1e100 do_nothing do_nothing
      (progress_event (neg GRB_INFINITY_1e100) GRB_INFINITY_1e100) idle_callback
    = Normal tt d'
    /\ ~ sentinel_translated GRB_INFINITY_1e100
           (neg GRB_INFINITY_1e100) (objectiveBest_ (self d'))
    /\ ~ sentinel_translated GRB_INFINITY_1e100
           GRB_INFINITY_1e100 (objectiveBound_ (self d')).
Proof.
  eexists. split; [vm_compute; reflexivity |].
  split; intros [Hpos Hneg].
  - specialize (Hneg eq_refl). vm_compute in Hneg. discriminate.
  - specialize (Hpos eq_refl). vm_compute in Hpos. discriminate.
Qed.

(** ** Errors raised during a dispatch *)

Lemma sum_terms_never_throws indices : forall coefficient e g x g',
  sum_terms indices coefficient e g <> Throw x g'.
Proof.
  induction indices as [| vi indices IH]; intros coefficient e g x g'; simpl.
  - discriminate.
  - destruct coefficient as [| c coefficient]; [discriminate |].
    unfold bind. rewrite var_at_in_array.
    destruct (in_array g (to_size_t vi)); [apply IH | discriminate].
Qed.

Lemma issue_throws_GRBException solver c m e m' :
  issue solver c m = Throw e m' -> exists code msg, e = GRBException code msg.
Proof.
  unfold issue.
  destruct (rejects solver (log m) c) as [[code msg] | ]; [| discriminate].
  intros H; inversion H. eauto.
Qed.

Lemma addLazy_throws_GRBException solver D tc (c c' : Callback D) e :
  addLazy solver tc c = Throw e c' -> exists code msg, e = GRBException code msg.
Proof.
  unfold addLazy, on_gurobi, on_model. unfold_monad.
  destruct (issue solver (Cb_addLazy tc) (gurobiModel_ (gurobi_ c)))
    as [[] m | x m | ] eqn:E; try discriminate.
  intros H; inversion H; subst. eapply issue_throws_GRBException; eassumption.
Qed.

(** An exception that leaves [addLazyConstraint] is the solver's. *)
Lemma addLazyConstraint_throws_GRBException
    solver D indices coefficient lowerBound upperBound (c c' : Callback D) e :
  addLazyConstraint solver indices coefficient lowerBound upperBound c = Throw e c' ->
  exists code msg, e = GRBException code msg.
Proof.
  unfold addLazyConstraint, on_gurobi. unfold bind at 1. unfold zoom.
  destruct (sum_terms indices coefficient GRBLinExpr_empty (gurobi_ c))
    as [expr g1 | x g1 | ] eqn:Es; try discriminate.
  - destruct (eqb lowerBound upperBound).
    + apply addLazy_throws_GRBException.
    + unfold bind, ret.
      destruct (neqb lowerBound (neg infinity)).
      * destruct (addLazy solver _ (set_gurobi_ g1 c)) as [[] c1 | x c1 | ] eqn:E1.
        -- destruct (neqb upperBound infinity); [| discriminate].
           apply addLazy_throws_GRBException.
        -- intros H; inversion H; subst.
           eapply addLazy_throws_GRBException; eassumption.
        -- discriminate.
      * destruct (neqb upperBound infinity); [| discriminate].
        apply addLazy_throws_GRBException.
  - exfalso. eapply sum_terms_never_throws; eassumption.
Qed.

(** An exception that leaves [setLabel] is the solver's. *)
Lemma setLabel_throws_GRBException
    solver D variableIndex val (c c' : Callback D) e :
  setLabel solver variableIndex val c = Throw e c' ->
  exists code msg, e = GRBException code msg.
Proof.
  unfold setLabel, setSolution, GRBModel_getVar, on_gurobi, on_model, ask, issue.
  unfold_monad. simpl.
  destruct (refuses solver _ _) as [[code msg] | ]; simpl.
  - intros H; inversion H. eauto.
  - destruct (rejects solver _ _) as [[code msg] | ]; simpl.
    + intros H; inversion H. eauto.
    + discriminate.
Qed.

(** C4, as the code has it.  When the routine a dispatch calls ends with
    an exception, [callback()] does not return: a [GRBException], whether the
    client's code or the solver raised it, leaves as a [std::runtime_error]
    whose message holds its error code and message; every other exception
    leaves unchanged.  The flag update after the routine does not happen.
    The exceptions that leave [addLazyConstraint] and [setLabel] are the
    solver's, so they fall under the first case. *)
Theorem callback_rethrows
    (solver : Solver) (GRB_INFINITY : double) (D : Type)
    (separate heuristic : M (Callback D) unit)
    (d : Dispatch D) (r : Routine) (e : exn) (c' : Callback D) :
  routine_due d = Some r ->
  routine_body separate heuristic r (self d) = Throw e c' ->
  callback GRB_INFINITY separate heuristic d
  = Throw (rethrown e) {| self := c'; invoked := invoked d ++ [r] |}
  /\ (forall code msg,
        rethrown (GRBException code msg)
        = runtime_error ("Gurobi error " ++ to_string code ++ ": " ++ msg
                           ++ " while executing Gurobi callback"))
  /\ (forall what, rethrown (other_exception what) = other_exception what)
  /\ (forall what, rethrown (runtime_error what) = runtime_error what)
  /\ (forall indices coefficient lowerBound upperBound (c0 c1 : Callback D) x,
        addLazyConstraint solver indices coefficient lowerBound upperBound c0
        = Throw x c1 ->
        exists code msg, x = GRBException code msg)
  /\ (forall variableIndex val (c0 c1 : Callback D) x,
        setLabel solver variableIndex val c0 = Throw x c1 ->
        exists code msg, x = GRBException code msg).
Proof.
  intros Hdue Hbody.
  split.
  { unfold routine_due in Hdue.
    destruct (where_ (self d)) eqn:Hw; try discriminate.
    - inversion Hdue; subst r.
      rewrite callback_MIPSOL by assumption.
      unfold after_routine. rewrite Hbody. reflexivity.
    - destruct (flag d) eqn:Hf; [| discriminate].
      inversion Hdue; subst r.
      rewrite callback_MIPNODE by assumption. rewrite Hf.
      unfold after_routine. rewrite Hbody. reflexivity. }
  split; [reflexivity |]. split; [reflexivity |]. split; [reflexivity |].
  split.
  - intros. eapply addLazyConstraint_throws_GRBException; eassumption.
  - intros. eapply setLabel_throws_GRBException; eassumption.
Qed.

Lemma callback_rethrows_witness :
  exists d',
    callback GRB_INFINITY_1e100 (cutting_separation rejecting_lazy) do_nothing
      (with_event (event GRB_CB_MIPSOL) idle_callback)
    = Throw (runtime_error
               "Gurobi error 10011: Lazy constraints not enabled while executing Gurobi callback")
            d'
    /\ flag d' = false.
Proof.
  destruct (@callback_rethrows rejecting_lazy GRB_INFINITY_1e100 unit
              (cutting_separation rejecting_lazy) do_nothing
              (with_event (event GRB_CB_MIPSOL) idle_callback) Separation
              (GRBException 10011 "Lazy constraints not enabled")
              (set_gurobi_
                 (after_calls
                    [lazy_upper {| constant := zero;
                                   terms := [(one, 0%nat); (one, 1%nat)] |} one]
                    two_variables)
                 (set_event (event GRB_CB_MIPSOL) (self idle_callback))))
    as (Hrun & _).
  - reflexivity.
  - reflexivity.
  - eexists. split; [exact Hrun | reflexivity].
Defined.

(** C4 as stated fails: an exception of the client's routine that is not the
    solver's leaves [callback()] as it is, with no solver error code or
    message attached. *)
Lemma foreign_exception_not_wrapped :
  exists e d',
    dispatch GRB_INFINITY_1e100 failing_separation do_nothing
      (event GRB_CB_MIPSOL) idle_callback = Throw e d'
    /\ e = other_exception "std::logic_error"
    /\ ~ carries_solver_error e.
Proof.
  do 2 eexists. split; [vm_compute; reflexivity |].
  split; [reflexivity |]. intros H. exact H.
Qed.

(** * Further properties of the code *)

(** ** [addVariables] *)

Lemma addTerms_all vars : forall e coeff n,
  List.length vars = n ->
  (n <= List.length coeff)%nat ->
  addTerms e coeff vars n
  = Some {| constant := constant e; terms := terms e ++ combine coeff vars |}.
Proof.
  induction vars as [| v vars IH]; intros e coeff n Hn Hlen; subst n.
  - simpl. destruct coeff; simpl; rewrite app_nil_r; destruct e; reflexivity.
  - destruct coeff as [| c coeff]; [simpl in Hlen; lia |].
    simpl. rewrite (IH _ _ _ eq_refl) by (simpl in Hlen; lia).
    simpl. rewrite <- app_assoc. reflexivity.
Qed.

Lemma addTerms_short vars : forall e coeff n,
  List.length vars = n ->
  (List.length coeff < n)%nat ->
  addTerms e coeff vars n = None.
Proof.
  induction vars as [| v vars IH]; intros e coeff n Hn Hlen; subst n.
  - simpl in Hlen. lia.
  - destruct coeff as [| c coeff]; [reflexivity |].
    simpl. apply (IH _ _ _ eq_refl). simpl in Hlen. lia.
Qed.

Lemma int_of_size_t_small n : 0 <= n < 2 ^ 31 -> int_of_size_t n = n.
Proof. intros H. unfold int_of_size_t. rewrite Z.mod_small; lia. Qed.

(** What one accepted call computes. *)
Lemma addVariables_run (solver : Solver) (n : nat) (coefficients : list double)
    (g : Gurobi) :
  Z.of_nat n < 2 ^ 31 ->
  (forall l k, rejects solver l k = None) ->
  addVariables solver (Z.of_nat n) coefficients g
  = match addTerms (gurobiObjective_ g) coefficients (new_handles g n) n with
    | Some objective' =>
        Normal tt
          {| gurobiModel_ :=
               {| numVars := (numVars (gurobiModel_ g) + n)%nat;
                  log := session_log g
                         ++ [Model_addVars (Z.of_nat n) GRB_BINARY; Model_update;
                             Model_setObjective objective'] |};
             gurobiVariables_ := Some (new_handles g n);
             gurobiObjective_ := objective';
             nVariables_ := to_size_t (nVariables_ g + Z.of_nat n) |}
    | None => Undefined
    end.
Proof.
  intros Hn Hacc.
  unfold addVariables. rewrite int_of_size_t_small by lia.
  unfold GRBModel_addVars, on_model, issue, new_handles, session_log.
  unfold_monad. rewrite Nat2Z.id. simpl. rewrite !Hacc. simpl.
  destruct (addTerms (gurobiObjective_ g) coefficients
              (seq (numVars (gurobiModel_ g)) n) n) as [ob | ]; [| reflexivity].
  simpl. rewrite Hacc. simpl. rewrite <- !app_assoc. reflexivity.
Qed.

(** X1.  One call of [addVariables] for [n] variables, with at least [n]
    coefficients and a solver that accepts the calls, returns; it issues
    [addVars(n, GRB_BINARY)], [update] and [setObjective] of the extended
    objective, in this order; the model has [n] more variables,
    [nVariables_] is raised by [n], the objective has one new term
    "coefficient times new variable" per variable, in order, and
    [gurobiVariables_] is the array of the [n] new handles. *)
Theorem addVariables_appends
    (solver : Solver) (n : nat) (coefficients : list double) (g : Gurobi) :
  Z.of_nat n < 2 ^ 31 ->
  (n <= List.length coefficients)%nat ->
  (forall l k, rejects solver l k = None) ->
  exists g',
    addVariables solver (Z.of_nat n) coefficients g = Normal tt g'
    /\ numVars (gurobiModel_ g') = (numVars (gurobiModel_ g) + n)%nat
    /\ nVariables_ g' = to_size_t (nVariables_ g + Z.of_nat n)
    /\ gurobiVariables_ g' = Some (new_handles g n)
    /\ gurobiObjective_ g' = extended_objective g n coefficients
    /\ session_log g'
       = session_log g
         ++ [Model_addVars (Z.of_nat n) GRB_BINARY; Model_update;
             Model_setObjective (extended_objective g n coefficients)].
Proof.
  intros Hn Hlen Hacc.
  rewrite addVariables_run by assumption.
  rewrite (@addTerms_all (new_handles g n) _ coefficients n)
    by (try apply length_seq; exact Hlen).
  eexists. split; [reflexivity |]. repeat split.
Qed.

Lemma addVariables_appends_witness :
  exists g',
    addVariables accepting 2 [one; of_Z 2; of_Z 3] two_variables = Normal tt g'
    /\ gurobiVariables_ g' = Some [2%nat; 3%nat]
    /\ nVariables_ g' = 4
    /\ terms (gurobiObjective_ g')
       = [(one, 0%nat); (one, 1%nat); (one, 2%nat); (of_Z 2, 3%nat)].
Proof.
  destruct (@addVariables_appends accepting 2 [one; of_Z 2; of_Z 3] two_variables)
    as (g' & Hrun & _ & Hn & Hv & Ho & _).
  - reflexivity.
  - simpl. lia.
  - intros l k. reflexivity.
  - exists g'. split; [exact Hrun |]. split; [exact Hv |].
    split; [exact Hn |]. rewrite Ho. reflexivity.
Defined.

(** X2.  After an accepted call of [addVariables] for [n] variables on a
    session whose model held [m] variables, the wrapper's index [i]
    addresses the model variable [m + i] for [0 <= i < n] and lies outside
    the array for every other [i]: the indices count from the latest call. *)
Theorem addVariables_index_base
    (solver : Solver) (n : nat) (coefficients : list double) (g g' : Gurobi) (i : Z) :
  Z.of_nat n < 2 ^ 31 ->
  (forall l k, rejects solver l k = None) ->
  addVariables solver (Z.of_nat n) coefficients g = Normal tt g' ->
  var_at i g'
  = if (0 <=? i) && (i <? Z.of_nat n)
    then Normal (numVars (gurobiModel_ g) + Z.to_nat i)%nat g'
    else Undefined.
Proof.
  intros Hn Hacc. rewrite addVariables_run by assumption.
  destruct (addTerms _ _ _ _) as [ob | ]; [| discriminate].
  intros H. inversion H as [Hg]. clear H.
  rewrite var_at_in_array. unfold in_array, handle_at. simpl.
  unfold new_handles. rewrite length_seq.
  destruct ((0 <=? i) && (i <? Z.of_nat n)) eqn:Hin; [| reflexivity].
  apply andb_prop in Hin. destruct Hin as [H0 H1].
  apply Z.leb_le in H0. apply Z.ltb_lt in H1.
  rewrite seq_nth by lia. reflexivity.
Qed.

Lemma addVariables_index_base_witness :
  exists g',
    addVariables accepting 2 [one; one] two_variables = Normal tt g'
    /\ var_at 0 g' = Normal 2%nat g'
    /\ var_at 2 g' = Undefined.
Proof.
  eexists. split; [vm_compute; reflexivity |].
  split.
  - apply (@addVariables_index_base accepting 2 [one; one] two_variables _ 0).
    + reflexivity.
    + intros l k. reflexivity.
    + vm_compute. reflexivity.
  - apply (@addVariables_index_base accepting 2 [one; one] two_variables _ 2).
    + reflexivity.
    + intros l k. reflexivity.
    + vm_compute. reflexivity.
Defined.

(** X3.  With fewer coefficients than variables, [addVariables] reads past
    the coefficient array: the behaviour is undefined, although the solver
    has accepted the new variables. *)
Theorem addVariables_too_few_coefficients
    (solver : Solver) (n : nat) (coefficients : list double) (g : Gurobi) :
  Z.of_nat n < 2 ^ 31 ->
  (List.length coefficients < n)%nat ->
  (forall l k, rejects solver l k = None) ->
  addVariables solver (Z.of_nat n) coefficients g = Undefined.
Proof.
  intros Hn Hlen Hacc.
  rewrite addVariables_run by assumption.
  rewrite (@addTerms_short (new_handles g n) _ coefficients n)
    by (try apply length_seq; exact Hlen).
  reflexivity.
Qed.

Lemma addVariables_too_few_coefficients_witness :
  addVariables accepting 2 [one] two_variables = Undefined.
Proof.
  apply (@addVariables_too_few_coefficients accepting 2 [one] two_variables).
  - reflexivity.
  - simpl. lia.
  - intros l k. reflexivity.
Defined.

(** X4.  When the solver rejects [addVars], [addVariables] throws the
    solver's exception with [nVariables_] already raised, while the array,
    the objective and the model are as before: the count no longer matches
    the array. *)
Theorem addVariables_rejected
    (solver : Solver) (numberOfVariables : Z) (coefficients : list double)
    (g : Gurobi) (code : Z) (msg : string) :
  rejects solver (session_log g)
    (Model_addVars (int_of_size_t numberOfVariables) GRB_BINARY) = Some (code, msg) ->
  exists g',
    addVariables solver numberOfVariables coefficients g
    = Throw (GRBException code msg) g'
    /\ nVariables_ g' = to_size_t (nVariables_ g + numberOfVariables)
    /\ gurobiVariables_ g' = gurobiVariables_ g
    /\ gurobiObjective_ g' = gurobiObjective_ g
    /\ numVars (gurobiModel_ g') = numVars (gurobiModel_ g).
Proof.
  intros Hrej.
  unfold addVariables, GRBModel_addVars, on_model, issue. unfold_monad.
  simpl. unfold session_log in Hrej. rewrite Hrej.
  eexists. split; [reflexivity |]. repeat split.
Qed.

Lemma addVariables_rejected_witness :
  exists g',
    addVariables rejecting_addVars 2 [one; one] (session_of (fresh_session accepting))
    = Throw (GRBException 10001 "Out of memory") g'
    /\ nVariables_ g' = 2
    /\ gurobiVariables_ g' = None.
Proof.
  destruct (@addVariables_rejected rejecting_addVars 2 [one; one]
              (session_of (fresh_session accepting)) 10001 "Out of memory"%string)
    as (g' & Hrun & Hn & Hv & _).
  - reflexivity.
  - exists g'. split; [exact Hrun |]. split; [exact Hn | exact Hv].
Defined.

(** ** What the member functions leave alone *)

Lemma same_variables_refl g : same_variables g g.
Proof. repeat split. Qed.

Lemma same_variables_trans g1 g2 g3 :
  same_variables g1 g2 -> same_variables g2 g3 -> same_variables g1 g3.
Proof.
  intros (A1 & A2 & A3 & A4) (B1 & B2 & B3 & B4).
  repeat split; congruence.
Qed.

Lemma keeps_ret {A} (a : A) : keeps_variables (ret a).
Proof. intros g g' H. inversion H. apply same_variables_refl. Qed.

Lemma keeps_undefined {A} : keeps_variables (@undefined Gurobi A).
Proof. intros g g' H. discriminate. Qed.

Lemma keeps_gets {A} (f : Gurobi -> A) : keeps_variables (gets f).
Proof. intros g g' H. inversion H. apply same_variables_refl. Qed.

Lemma keeps_bind {A B} (m : M Gurobi A) (k : A -> M Gurobi B) :
  keeps_variables m -> (forall a, keeps_variables (k a)) ->
  keeps_variables (bind m k).
Proof.
  intros Hm Hk g g' H. unfold bind in H.
  destruct (m g) as [a g1 | e g1 | ] eqn:E.
  - eapply same_variables_trans; [apply Hm; rewrite E; reflexivity |].
    eapply Hk. exact H.
  - apply Hm. rewrite E. exact H.
  - discriminate.
Qed.

Lemma keeps_issue solver c : keeps_variables (on_model (issue solver c)).
Proof.
  intros g g'. unfold on_model, issue, zoom.
  destruct (rejects solver (log (gurobiModel_ g)) c) as [[code msg] | ];
    intros H; inversion H; repeat split.
Qed.

Lemma keeps_ask solver q : keeps_variables (on_model (ask solver q)).
Proof.
  intros g g'. rewrite ask_answer.
  destruct (refuses solver (session_log g) q) as [[code msg] | ];
    intros H; inversion H; apply same_variables_refl.
Qed.

Lemma keeps_var_at i : keeps_variables (var_at i).
Proof.
  intros g g'. rewrite var_at_in_array.
  destruct (in_array g i); intros H; inversion H. apply same_variables_refl.
Qed.

Lemma keeps_sum_terms indices : forall coefficient e,
  keeps_variables (sum_terms indices coefficient e).
Proof.
  induction indices as [| vi indices IH]; intros coefficient e; simpl.
  - apply keeps_ret.
  - destruct coefficient as [| c coefficient]; [apply keeps_undefined |].
    apply keeps_bind; [apply keeps_var_at | intros v; apply IH].
Qed.

Lemma keeps_setStart_loop solver remaining : forall j values,
  keeps_variables (setStart_loop solver remaining j values).
Proof.
  induction remaining as [| remaining IH]; intros j values; simpl.
  - apply keeps_ret.
  - destruct values as [| x values]; [apply keeps_undefined |].
    apply keeps_bind; [apply keeps_var_at | intros v].
    apply keeps_bind; [apply keeps_issue | intros _; apply IH].
Qed.

Ltac keeps :=
  repeat first
    [ apply keeps_ret | apply keeps_undefined | apply keeps_gets
    | apply keeps_issue | apply keeps_ask | apply keeps_var_at
    | apply keeps_sum_terms | apply keeps_setStart_loop
    | apply keeps_bind; [| intros ?] ].

Lemma members_keep_variables_aux (solver : Solver) (m : member) (g g' : Gurobi) :
  is_addVariables m = false ->
  final_state (run_member solver m g) = Some g' ->
  same_variables g g'.
Proof.
  intros Hm. revert g g'. change (keeps_variables (run_member solver m)).
  destruct m; try discriminate; simpl;
    unfold setVerbosity, setPreSolver, setBranchPrio, setCallback, optimize,
      discard, objective, bound, gap, label, addConstraint, GRBModel_addConstr,
      setStart, env_set.
  - destruct verbosity; keeps.
  - destruct preSolver; keeps.
  - keeps.
  - keeps.
  - keeps.
  - keeps.
  - keeps.
  - keeps.
  - keeps.
  - apply keeps_bind; [apply keeps_sum_terms | intros expression].
    destruct (eqb lowerBound upperBound); [keeps |].
    apply keeps_bind.
    + destruct (neqb lowerBound (neg infinity)); keeps.
    + intros _. destruct (neqb upperBound infinity); keeps.
  - keeps.
Qed.

(** X5.  Every member function other than [addVariables] leaves the array
    [gurobiVariables_], the count [nVariables_], the stored objective and
    the number of variables of the model as they are, whether it returns or
    throws. *)
Theorem members_keep_variables (solver : Solver) (m : member) (g g' : Gurobi) :
  is_addVariables m = false ->
  final_state (run_member solver m g) = Some g' ->
  same_variables g g'.
Proof. apply members_keep_variables_aux. Qed.

Lemma members_keep_variables_witness :
  same_variables two_variables
    (session_of (addConstraint accepting [0; 1] [one; one] (neg infinity) one
                   two_variables)).
Proof.
  apply (@members_keep_variables accepting
           (call_addConstraint [0; 1] [one; one] (neg infinity) one)).
  - reflexivity.
  - reflexivity.
Defined.

(** ** Sessions built with one call of [addVariables] *)

Lemma balanced_same g g' : balanced g -> same_variables g g' -> balanced g'.
Proof.
  intros (Hn & Hlt & Hv) (A1 & A2 & A3 & A4). unfold balanced.
  rewrite A1, A2, A4. repeat split; assumption.
Qed.

Lemma run_members_keep solver ms : forall g g',
  batches ms = 0%nat ->
  run_members solver ms g = Normal tt g' ->
  same_variables g g'.
Proof.
  unfold batches.
  induction ms as [| m ms IH]; intros g g' Hb H; simpl in *.
  - inversion H. apply same_variables_refl.
  - destruct (is_addVariables m) eqn:Hm; [discriminate |].
    unfold bind in H.
    destruct (run_member solver m g) as [[] g1 | e g1 | ] eqn:E; try discriminate.
    eapply same_variables_trans.
    + eapply members_keep_variables_aux; [exact Hm | rewrite E; reflexivity].
    + apply IH; assumption.
Qed.

Lemma run_members_balanced solver ms : forall g g',
  balanced g ->
  numVars (gurobiModel_ g) = 0%nat ->
  counts_fit ms ->
  (batches ms <= 1)%nat ->
  run_members solver ms g = Normal tt g' ->
  balanced g'.
Proof.
  unfold batches.
  induction ms as [| m ms IH]; intros g g' Hbal H0 Hfit Hb H; simpl in *.
  - inversion H; subst. exact Hbal.
  - unfold bind in H.
    destruct (run_member solver m g) as [[] g1 | e g1 | ] eqn:E; try discriminate.
    assert (Hfit' : counts_fit ms).
    { intros n cs Hin. apply (Hfit n cs). right. exact Hin. }
    destruct (is_addVariables m) eqn:Hm.
    + destruct m; try discriminate. simpl in E.
      assert (Hn : 0 <= numberOfVariables < 2 ^ 31).
      { apply (Hfit numberOfVariables coefficients). left. reflexivity. }
      rewrite <- (Z2Nat.id numberOfVariables) in E by lia.
      apply addVariables_accepted in E; [| rewrite Z2Nat.id; lia].
      destruct E as (Ev & Enum & En).
      assert (Hbal1 : balanced g1).
      { destruct Hbal as [Hnv _]. unfold balanced.
        rewrite Ev, Enum, En, Hnv, H0. simpl.
        assert (Hs : to_size_t (Z.of_nat (Z.to_nat numberOfVariables))
                     = Z.of_nat (Z.to_nat numberOfVariables)).
        { unfold to_size_t, size_t_modulus. apply Z.mod_small. lia. }
        rewrite Hs. repeat split. lia. }
      eapply balanced_same; [exact Hbal1 |].
      eapply run_members_keep; [| exact H].
      unfold batches. simpl in Hb. lia.
    + assert (Hsame : same_variables g g1).
      { eapply members_keep_variables_aux; [exact Hm | rewrite E; reflexivity]. }
      apply (IH g1 g'); try assumption.
      * eapply balanced_same; eassumption.
      * destruct Hsame as (_ & _ & _ & ->). exact H0.
Qed.

Lemma program_balanced solver ms g :
  counts_fit ms ->
  (batches ms <= 1)%nat ->
  program solver ms = Normal tt g ->
  balanced g.
Proof.
  intros Hfit Hb. unfold program, bind.
  destruct (Gurobi_ctor solver Gurobi_members) as [[] g0 | e g0 | ] eqn:E;
    try discriminate.
  assert (Hsame : same_variables Gurobi_members g0).
  { assert (K : keeps_variables (Gurobi_ctor solver)).
    { unfold Gurobi_ctor, setVerbosity, env_set. keeps. }
    apply K. rewrite E. reflexivity. }
  intros H. eapply run_members_balanced; try eassumption.
  - eapply balanced_same; [| exact Hsame]. repeat split.
  - destruct Hsame as (_ & _ & _ & ->). reflexivity.
Qed.

Lemma balanced_var_at g i :
  balanced g ->
  var_at i g = if (0 <=? i) && (i <? nVariables_ g)
               then Normal (Z.to_nat i) g else Undefined.
Proof.
  intros (Hn & _ & Hv). rewrite var_at_in_array. unfold in_array, handle_at.
  destruct (gurobiVariables_ g) as [vars | ].
  - subst vars. rewrite length_seq, <- Hn.
    destruct ((0 <=? i) && (i <? nVariables_ g)) eqn:Hin; [| reflexivity].
    apply andb_prop in Hin. destruct Hin as [H0 H1].
    apply Z.leb_le in H0. apply Z.ltb_lt in H1.
    rewrite seq_nth by lia. reflexivity.
  - rewrite Hn, Hv. simpl.
    destruct (0 <=? i) eqn:H0; [| reflexivity].
    destruct (Z.ltb_spec i 0); [| reflexivity].
    apply Z.leb_le in H0. lia.
Qed.

(** X6.  In a client program that constructs a session and calls
    [addVariables] at most once (any other member functions any number of
    times, every call returning), the count [nVariables_] is the number of
    variables of the model, and the wrapper's index [i] addresses the model
    variable [i] exactly for [0 <= i < nVariables_]. *)
Theorem single_batch_indices
    (solver : Solver) (ms : list member) (g : Gurobi) (i : Z) :
  counts_fit ms ->
  (batches ms <= 1)%nat ->
  program solver ms = Normal tt g ->
  nVariables_ g = Z.of_nat (numVars (gurobiModel_ g))
  /\ var_at i g = if (0 <=? i) && (i <? nVariables_ g)
                  then Normal (Z.to_nat i) g else Undefined.
Proof.
  intros Hfit Hb Hrun.
  pose proof (@program_balanced solver ms g Hfit Hb Hrun) as Hbal.
  split; [apply Hbal | apply balanced_var_at; exact Hbal].
Qed.

Lemma single_batch_indices_witness :
  exists g,
    program accepting
      [call_setPreSolver PRE_SOLVER_DUAL 3; call_addVariables 2 [one; one];
       call_addConstraint [0; 1] [one; one] (neg infinity) one; call_optimize]
    = Normal tt g
    /\ nVariables_ g = 2
    /\ var_at 1 g = Normal 1%nat g
    /\ var_at 2 g = Undefined.
Proof.
  eexists. split; [vm_compute; reflexivity |].
  split; [reflexivity |].
  split.
  - refine (proj2 (@single_batch_indices accepting
             [call_setPreSolver PRE_SOLVER_DUAL 3; call_addVariables 2 [one; one];
              call_addConstraint [0; 1] [one; one] (neg infinity) one; call_optimize]
             _ 1 _ _ _)).
    + intros n cs [H | [H | [H | [H | []]]]]; inversion H;
        split; [intro X; discriminate X | reflexivity].
    + unfold batches. simpl. lia.
    + vm_compute. reflexivity.
  - refine (proj2 (@single_batch_indices accepting
             [call_setPreSolver PRE_SOLVER_DUAL 3; call_addVariables 2 [one; one];
              call_addConstraint [0; 1] [one; one] (neg infinity) one; call_optimize]
             _ 2 _ _ _)).
    + intros n cs [H | [H | [H | [H | []]]]]; inversion H;
        split; [intro X; discriminate X | reflexivity].
    + unfold batches. simpl. lia.
    + vm_compute. reflexivity.
Defined.

(** ** More on the emission of constraints *)

Lemma addConstraint_run solver indices coefficient lowerBound upperBound g e :
  sum_terms indices coefficient GRBLinExpr_empty g = Normal e g ->
  (forall l k, rejects solver l k = None) ->
  addConstraint solver indices coefficient lowerBound upperBound g
  = Normal tt (after_calls (emitted_constraints e lowerBound upperBound) g).
Proof.
  intros Hsum Hacc.
  unfold addConstraint, GRBModel_addConstr, emitted_constraints. unfold bind at 1.
  rewrite Hsum. rewrite neqb_neg_infinity, neqb_infinity.
  destruct (eqb lowerBound upperBound).
  - apply issue_accepted. apply Hacc.
  - unfold bind, ret, unless.
    destruct (is_neg_infinity lowerBound), (is_pos_infinity upperBound); simpl.
    + rewrite after_calls_nil. reflexivity.
    + apply issue_accepted. apply Hacc.
    + rewrite issue_accepted by apply Hacc. reflexivity.
    + rewrite issue_accepted by apply Hacc.
      rewrite issue_accepted by apply Hacc.
      unfold after_calls, set_gurobiModel_, session_log. simpl.
      rewrite <- app_assoc. reflexivity.
Qed.

Lemma addLazy_accepted solver D tc (c : Callback D) :
  rejects solver (session_log (gurobi_ c)) (Cb_addLazy tc) = None ->
  addLazy solver tc c = Normal tt (set_gurobi_ (after_calls [Cb_addLazy tc] (gurobi_ c)) c).
Proof.
  intros H. unfold addLazy, on_gurobi, zoom.
  rewrite issue_accepted by exact H. reflexivity.
Qed.

Lemma addLazyConstraint_run solver D indices coefficient lowerBound upperBound
    (c : Callback D) e :
  sum_terms indices coefficient GRBLinExpr_empty (gurobi_ c) = Normal e (gurobi_ c) ->
  (forall l k, rejects solver l k = None) ->
  addLazyConstraint solver indices coefficient lowerBound upperBound c
  = Normal tt (set_gurobi_ (after_calls (emitted_lazy e lowerBound upperBound)
                                        (gurobi_ c)) c).
Proof.
  intros Hsum Hacc.
  unfold addLazyConstraint, emitted_lazy, on_gurobi. unfold bind at 1. unfold zoom at 1.
  rewrite Hsum. rewrite neqb_neg_infinity, neqb_infinity.
  destruct (eqb lowerBound upperBound).
  - rewrite addLazy_accepted by apply Hacc. reflexivity.
  - unfold bind, ret, unless.
    destruct (is_neg_infinity lowerBound), (is_pos_infinity upperBound); simpl.
    + rewrite after_calls_nil. reflexivity.
    + rewrite addLazy_accepted by apply Hacc. reflexivity.
    + rewrite addLazy_accepted by apply Hacc. reflexivity.
    + rewrite addLazy_accepted by apply Hacc.
      rewrite addLazy_accepted by apply Hacc.
      unfold after_calls, set_gurobiModel_, session_log, lazy_lower, lazy_upper. simpl.
      rewrite <- app_assoc. reflexivity.
Qed.

Lemma balanced_sum_terms g indices coefficient :
  balanced g ->
  Forall (fun i => 0 <= i < nVariables_ g) indices ->
  (List.length indices <= List.length coefficient)%nat ->
  sum_terms indices coefficient GRBLinExpr_empty g
  = Normal (expression_over indices coefficient) g.
Proof.
  intros Hbal Hall Hlen.
  assert (Hin : forall i, 0 <= i < nVariables_ g ->
                  in_array g (to_size_t i) = true
                  /\ handle_at g (to_size_t i) = Z.to_nat i).
  { intros i Hi.
    assert (Hs : to_size_t i = i).
    { unfold to_size_t, size_t_modulus. apply Z.mod_small.
      destruct Hbal as (_ & Hlt & _). lia. }
    rewrite Hs. pose proof (balanced_var_at i Hbal) as Hv.
    rewrite var_at_in_array in Hv.
    destruct (Z.leb_spec 0 i); [| lia].
    destruct (Z.ltb_spec i (nVariables_ g)); [| lia]. simpl in Hv.
    destruct (in_array g i); [| discriminate].
    inversion Hv. split; reflexivity. }
  rewrite sum_terms_in_range; try assumption.
  - unfold expression_over, terms_of. simpl. do 2 f_equal. f_equal.
    apply map_ext_in. intros i Hi. apply Hin.
    rewrite Forall_forall in Hall. apply Hall. exact Hi.
  - apply forallb_forall. intros i Hi. apply Hin.
    rewrite Forall_forall in Hall. apply Hall. exact Hi.
Qed.

(** X7.  In a client program with at most one [addVariables] call, a
    constraint over indices below [nVariables_] (with a coefficient for
    each, and a solver that accepts the calls) is emitted over the model
    variables with these numbers, each with its coefficient, in order. *)
Theorem constraint_over_model_variables
    (solver : Solver) (ms : list member) (g : Gurobi)
    (indices : list Z) (coefficient : list double) (lowerBound upperBound : double) :
  counts_fit ms ->
  (batches ms <= 1)%nat ->
  program solver ms = Normal tt g ->
  Forall (fun i => 0 <= i < nVariables_ g) indices ->
  (List.length indices <= List.length coefficient)%nat ->
  (forall l k, rejects solver l k = None) ->
  addConstraint solver indices coefficient lowerBound upperBound g
  = Normal tt (after_calls
                 (emitted_constraints (expression_over indices coefficient)
                                      lowerBound upperBound) g).
Proof.
  intros Hfit Hb Hrun Hall Hlen Hacc.
  apply addConstraint_run; [| exact Hacc].
  apply balanced_sum_terms; try assumption.
  eapply program_balanced; eassumption.
Qed.

Lemma constraint_over_model_variables_witness :
  addConstraint accepting [1; 0] [of_Z 2; of_Z 3] one one two_variables
  = Normal tt (after_calls
                 [equality_constraint
                    {| constant := zero; terms := [(of_Z 2, 1%nat); (of_Z 3, 0%nat)] |}
                    one]
                 two_variables).
Proof.
  apply (@constraint_over_model_variables accepting [call_addVariables 2 [one; one]]
           two_variables [1; 0] [of_Z 2; of_Z 3] one one).
  - intros n cs [H | []]. inversion H.
    split; [intro X; discriminate X | reflexivity].
  - unfold batches. simpl. lia.
  - vm_compute. reflexivity.
  - repeat constructor; vm_compute; congruence.
  - simpl. lia.
  - intros l k. reflexivity.
Defined.

(** X8.  In a client program with at most one [addVariables] call,
    [setStart] on at least [nVariables_] values (and a solver that accepts
    the calls) sets value [j] as the start value of model variable [j], for
    every [j] below [nVariables_], in order. *)
Theorem setStart_over_model_variables
    (solver : Solver) (ms : list member) (g : Gurobi) (values : list double) :
  counts_fit ms ->
  (batches ms <= 1)%nat ->
  program solver ms = Normal tt g ->
  nVariables_ g <= Z.of_nat (List.length values) ->
  (forall l k, rejects solver l k = None) ->
  setStart solver values g
  = Normal tt (after_calls
                 (start_calls (seq 0 (numVars (gurobiModel_ g))) values) g).
Proof.
  intros Hfit Hb Hrun Hlen Hacc.
  pose proof (@program_balanced solver ms g Hfit Hb Hrun) as Hbal.
  destruct Hbal as (Hn & Hlt & Hv).
  unfold setStart, bind, gets. rewrite Hn, Nat2Z.id.
  pose proof (@setStart_loop_enough solver Hacc
                (seq 0 (numVars (gurobiModel_ g))) 0 values g) as Hloop.
  rewrite length_seq in Hloop. apply Hloop; [lia |].
  intros k v Hk. simpl.
  pose proof (nth_error_Some (seq 0 (numVars (gurobiModel_ g))) k) as Hs.
  assert (Hklt : (k < numVars (gurobiModel_ g))%nat).
  { rewrite length_seq in Hs. apply Hs. intros X.
    change (nth_error (seq 0 (numVars (gurobiModel_ g))) k = Some v) in Hk.
    rewrite X in Hk. discriminate. }
  apply (nth_error_nth _ _ 0%nat) in Hk. rewrite seq_nth in Hk by exact Hklt.
  simpl in Hk. subst v.
  rewrite (@balanced_var_at g (Z.of_nat k)) by (repeat split; assumption).
  destruct (Z.leb_spec 0 (Z.of_nat k)); [| lia].
  destruct (Z.ltb_spec (Z.of_nat k) (nVariables_ g)); [| lia].
  simpl. rewrite Nat2Z.id. reflexivity.
Qed.

Lemma setStart_over_model_variables_witness :
  setStart accepting [of_Z 2; of_Z 3] two_variables
  = Normal tt (after_calls [Var_set_double 0%nat GRB_DoubleAttr_Start (of_Z 2);
                            Var_set_double 1%nat GRB_DoubleAttr_Start (of_Z 3)]
                           two_variables).
Proof.
  apply (@setStart_over_model_variables accepting [call_addVariables 2 [one; one]]
           two_variables [of_Z 2; of_Z 3]).
  - intros n cs [H | []]. inversion H.
    split; [intro X; discriminate X | reflexivity].
  - unfold batches. simpl. lia.
  - vm_compute. reflexivity.
  - vm_compute. discriminate.
  - intros l k. reflexivity.
Defined.

(** X9.  The two bounds are not compared for order.  Whenever
    [lowerBound == upperBound] is false (the lower bound above the upper
    one, or a NaN among them, included), a constraint addition emits the
    lower-bound side unless [lowerBound] is negative infinity and the
    upper-bound side unless [upperBound] is positive infinity; with a finite
    lower bound above a finite upper bound, or with a NaN, both sides are
    emitted and nothing is raised. *)
Theorem bounds_not_ordered
    (solver : Solver) (D : Type) (c : Callback D)
    (indices : list Z) (coefficient : list double)
    (lowerBound upperBound : double) (expression : GRBLinExpr) :
  sum_terms indices coefficient GRBLinExpr_empty (gurobi_ c)
    = Normal expression (gurobi_ c) ->
  (forall l k, rejects solver l k = None) ->
  eqb lowerBound upperBound = false ->
  addConstraint solver indices coefficient lowerBound upperBound (gurobi_ c)
  = Normal tt
      (after_calls
         (unless (is_neg_infinity lowerBound) (lower_constraint expression lowerBound)
          ++ unless (is_pos_infinity upperBound) (upper_constraint expression upperBound))
         (gurobi_ c))
  /\ addLazyConstraint solver indices coefficient lowerBound upperBound c
     = Normal tt
         (set_gurobi_
            (after_calls
               (unless (is_neg_infinity lowerBound) (lazy_lower expression lowerBound)
                ++ unless (is_pos_infinity upperBound) (lazy_upper expression upperBound))
               (gurobi_ c)) c).
Proof.
  intros Hsum Hacc Hne. split.
  - rewrite (@addConstraint_run solver indices coefficient lowerBound upperBound
               (gurobi_ c) expression Hsum Hacc).
    unfold emitted_constraints. rewrite Hne. reflexivity.
  - rewrite (@addLazyConstraint_run solver D indices coefficient lowerBound upperBound
               c expression Hsum Hacc).
    unfold emitted_lazy. rewrite Hne. reflexivity.
Qed.

Lemma bounds_not_ordered_witness :
  addConstraint accepting [0] [one] (of_Z 2) one two_variables
  = Normal tt
      (after_calls
         [lower_constraint {| constant := zero; terms := [(one, 0%nat)] |} (of_Z 2);
          upper_constraint {| constant := zero; terms := [(one, 0%nat)] |} one]
         two_variables)
  /\ addConstraint accepting [0] [one] nan one two_variables
     = Normal tt
         (after_calls
            [lower_constraint {| constant := zero; terms := [(one, 0%nat)] |} nan;
             upper_constraint {| constant := zero; terms := [(one, 0%nat)] |} one]
            two_variables).
Proof.
  split.
  - apply (@bounds_not_ordered accepting unit (self idle_callback)
             [0] [one] (of_Z 2) one {| constant := zero; terms := [(one, 0%nat)] |}).
    + reflexivity.
    + intros l k. reflexivity.
    + reflexivity.
  - apply (@bounds_not_ordered accepting unit (self idle_callback)
             [0] [one] nan one {| constant := zero; terms := [(one, 0%nat)] |}).
    + reflexivity.
    + intros l k. reflexivity.
    + reflexivity.
Defined.

(** X10.  A two-sided addition is not atomic.  With both sides due, if the
    solver rejects the lower-bound constraint the exception leaves at once
    and the upper-bound constraint is never issued; if it accepts the lower
    and rejects the upper one, the exception leaves with the lower-bound
    constraint already added. *)
Theorem two_sided_addition_not_atomic
    (solver : Solver) (indices : list Z) (coefficient : list double)
    (lowerBound upperBound : double) (g : Gurobi) (expression : GRBLinExpr) :
  sum_terms indices coefficient GRBLinExpr_empty g = Normal expression g ->
  eqb lowerBound upperBound = false ->
  is_neg_infinity lowerBound = false ->
  is_pos_infinity upperBound = false ->
  addConstraint solver indices coefficient lowerBound upperBound g
  = match rejects solver (session_log g) (lower_constraint expression lowerBound) with
    | Some (code, msg) =>
        Throw (GRBException code msg)
              (after_calls [lower_constraint expression lowerBound] g)
    | None =>
        match rejects solver
                (session_log g ++ [lower_constraint expression lowerBound])
                (upper_constraint expression upperBound) with
        | Some (code, msg) =>
            Throw (GRBException code msg)
                  (after_calls [lower_constraint expression lowerBound;
                                upper_constraint expression upperBound] g)
        | None =>
            Normal tt
                   (after_calls [lower_constraint expression lowerBound;
                                 upper_constraint expression upperBound] g)
        end
    end.
Proof.
  intros Hsum Hne Hlo Hup.
  unfold addConstraint, GRBModel_addConstr. unfold bind at 1.
  rewrite Hsum, Hne, neqb_neg_infinity, neqb_infinity, Hlo, Hup. simpl.
  unfold on_model, issue, lower_constraint, upper_constraint, after_calls,
    session_log, set_gurobiModel_.
  unfold_monad. simpl.
  destruct (rejects solver (log (gurobiModel_ g)) _) as [[code msg] | ]; simpl;
    [reflexivity |].
  destruct (rejects solver _ _) as [[code msg] | ]; simpl;
    rewrite <- app_assoc; reflexivity.
Qed.

Lemma two_sided_addition_not_atomic_witness :
  addConstraint one_constraint_only [0] [one] zero one two_variables
  = Throw (GRBException 10003 "Invalid argument")
          (after_calls
             [lower_constraint {| constant := zero; terms := [(one, 0%nat)] |} zero;
              upper_constraint {| constant := zero; terms := [(one, 0%nat)] |} one]
             two_variables).
Proof.
  apply (@two_sided_addition_not_atomic one_constraint_only [0] [one] zero one
           two_variables {| constant := zero; terms := [(one, 0%nat)] |});
    reflexivity.
Defined.

(** X11.  An empty index range touches neither the variable array nor the
    coefficients: on every session, also one without variables, and for
    every coefficient iterator, the constraint over the empty expression is
    emitted (the solver accepting the calls). *)
Theorem empty_index_range
    (solver : Solver) (D : Type) (c : Callback D)
    (coefficient : list double) (lowerBound upperBound : double) :
  (forall l k, rejects solver l k = None) ->
  addConstraint solver [] coefficient lowerBound upperBound (gurobi_ c)
  = Normal tt (after_calls (emitted_constraints GRBLinExpr_empty lowerBound upperBound)
                           (gurobi_ c))
  /\ addLazyConstraint solver [] coefficient lowerBound upperBound c
     = Normal tt (set_gurobi_
                    (after_calls (emitted_lazy GRBLinExpr_empty lowerBound upperBound)
                                 (gurobi_ c)) c).
Proof.
  intros Hacc. split.
  - apply addConstraint_run; [reflexivity | exact Hacc].
  - apply addLazyConstraint_run; [reflexivity | exact Hacc].
Qed.

Lemma empty_index_range_witness :
  addConstraint accepting [] [] one one no_variables
  = Normal tt (after_calls [equality_constraint GRBLinExpr_empty one] no_variables).
Proof.
  apply (@empty_index_range accepting unit
           (Callback_ctor no_variables tt (event GRB_CB_POLLING)) [] one one).
  intros l k. reflexivity.
Defined.

Lemma sum_terms_short g indices : forall coefficient e,
  (List.length coefficient < List.length indices)%nat ->
  sum_terms indices coefficient e g = Undefined.
Proof.
  induction indices as [| vi indices IH]; intros coefficient e Hlen.
  - simpl in Hlen. lia.
  - destruct coefficient as [| c coefficient]; [reflexivity |].
    simpl. unfold bind. rewrite var_at_in_array.
    destruct (in_array g (to_size_t vi)); [| reflexivity].
    apply IH. simpl in Hlen. lia.
Qed.

(** X12.  With fewer coefficients than indices a constraint addition reads
    past the coefficients: the behaviour is undefined, for the static and
    the lazy addition, whatever the indices are. *)
Theorem too_few_coefficients
    (solver : Solver) (D : Type) (c : Callback D)
    (indices : list Z) (coefficient : list double) (lowerBound upperBound : double) :
  (List.length coefficient < List.length indices)%nat ->
  addConstraint solver indices coefficient lowerBound upperBound (gurobi_ c) = Undefined
  /\ addLazyConstraint solver indices coefficient lowerBound upperBound c = Undefined.
Proof.
  intros Hlen.
  unfold addConstraint, addLazyConstraint, on_gurobi. unfold_monad.
  rewrite sum_terms_short by assumption. split; reflexivity.
Qed.

Lemma too_few_coefficients_witness :
  addConstraint accepting [0; 1] [one] zero one two_variables = Undefined.
Proof.
  apply (@too_few_coefficients accepting unit (self idle_callback)
           [0; 1] [one] zero one).
  simpl. lia.
Defined.

(** X13.  A negative index is converted to [size_t] and so becomes a
    position of at least [2^63]: on a session whose array has fewer entries
    than that, a constraint addition that mentions a negative index (not
    below [-2^63]) has undefined behaviour. *)
Theorem negative_index
    (solver : Solver) (D : Type) (c : Callback D)
    (indices : list Z) (coefficient : list double) (lowerBound upperBound : double)
    (i : Z) :
  In i indices ->
  - 2 ^ 63 <= i < 0 ->
  (forall vars, gurobiVariables_ (gurobi_ c) = Some vars ->
                Z.of_nat (List.length vars) <= 2 ^ 63) ->
  addConstraint solver indices coefficient lowerBound upperBound (gurobi_ c) = Undefined
  /\ addLazyConstraint solver indices coefficient lowerBound upperBound c = Undefined.
Proof.
  intros Hin Hi Hsize.
  assert (Hout : forallb (fun k => in_array (gurobi_ c) (to_size_t k)) indices = false).
  { destruct (forallb _ indices) eqn:E; [| reflexivity].
    rewrite forallb_forall in E. specialize (E i Hin).
    unfold in_array in E.
    destruct (gurobiVariables_ (gurobi_ c)) as [vars | ]; [| discriminate].
    specialize (Hsize vars eq_refl).
    apply andb_prop in E. destruct E as [_ E]. apply Z.ltb_lt in E.
    unfold to_size_t, size_t_modulus in E.
    assert (i mod 2 ^ 64 = i + 2 ^ 64).
    { symmetry. apply Z.mod_unique with (q := -1); lia. }
    lia. }
  unfold addConstraint, addLazyConstraint, on_gurobi. unfold_monad.
  rewrite sum_terms_out_of_range by assumption. split; reflexivity.
Qed.

Lemma negative_index_witness :
  addConstraint accepting [0; -1] [one; one] zero one two_variables = Undefined.
Proof.
  apply (@negative_index accepting unit (self idle_callback)
           [0; -1] [one; one] zero one (-1)).
  - right. left. reflexivity.
  - split; [intro X; discriminate X | reflexivity].
  - intros vars H. vm_compute in H. inversion H. vm_compute. discriminate.
Defined.

(** ** Access to solution values inside the callback *)

Lemma set_gurobi_same D (c : Callback D) :
  set_gurobi_ (set_gurobiModel_ (gurobiModel_ (gurobi_ c)) (gurobi_ c)) c = c.
Proof. destruct c as [w cb ob bn fl rt [m vs o n] d]. reflexivity. Qed.

(** X14.  [Callback::label] and [Callback::setLabel] do not use the array
    [gurobiVariables_]: for an index [i] that fits an [int] they ask the
    solver for its variable number [i].  If the solver refuses the index,
    its exception is thrown and nothing is changed; otherwise [label] reads
    the candidate value of that variable and [setLabel] injects the value for
    it.  The behaviour is never undefined. *)
Theorem callback_labels_by_model_index
    (solver : Solver) (D : Type) (c : Callback D) (i : Z) (val : double) :
  0 <= i < 2 ^ 31 ->
  Callback_label solver i c
  = match refuses solver (session_log (gurobi_ c)) (Model_getVar i) with
    | Some (code, msg) => Throw (GRBException code msg) c
    | None => getSolution (Z.to_nat i) c
    end
  /\ setLabel solver i val c
     = match refuses solver (session_log (gurobi_ c)) (Model_getVar i) with
       | Some (code, msg) => Throw (GRBException code msg) c
       | None =>
           match rejects solver (session_log (gurobi_ c))
                   (Cb_setSolution (Z.to_nat i) val) with
           | Some (code, msg) =>
               Throw (GRBException code msg)
                     (set_gurobi_ (after_calls [Cb_setSolution (Z.to_nat i) val]
                                               (gurobi_ c)) c)
           | None =>
               Normal tt
                      (set_gurobi_ (after_calls [Cb_setSolution (Z.to_nat i) val]
                                                (gurobi_ c)) c)
           end
       end
  /\ Callback_label solver i c <> Undefined
  /\ setLabel solver i val c <> Undefined.
Proof.
  intros Hi.
  assert (Hlabel : Callback_label solver i c
    = match refuses solver (session_log (gurobi_ c)) (Model_getVar i) with
      | Some (code, msg) => Throw (GRBException code msg) c
      | None => getSolution (Z.to_nat i) c
      end).
  { unfold Callback_label, GRBModel_getVar, on_gurobi, on_model, ask, session_log.
    rewrite int_of_size_t_small by exact Hi. unfold_monad.
    destruct (refuses solver (log (gurobiModel_ (gurobi_ c))) (Model_getVar i))
      as [[code msg] | ]; simpl; rewrite set_gurobi_same; reflexivity. }
  assert (Hset : setLabel solver i val c
    = match refuses solver (session_log (gurobi_ c)) (Model_getVar i) with
      | Some (code, msg) => Throw (GRBException code msg) c
      | None =>
          match rejects solver (session_log (gurobi_ c))
                  (Cb_setSolution (Z.to_nat i) val) with
          | Some (code, msg) =>
              Throw (GRBException code msg)
                    (set_gurobi_ (after_calls [Cb_setSolution (Z.to_nat i) val]
                                              (gurobi_ c)) c)
          | None =>
              Normal tt
                     (set_gurobi_ (after_calls [Cb_setSolution (Z.to_nat i) val]
                                               (gurobi_ c)) c)
          end
      end).
  { unfold setLabel, setSolution, GRBModel_getVar, on_gurobi, on_model, ask, issue,
      session_log, after_calls.
    rewrite int_of_size_t_small by exact Hi. unfold_monad.
    destruct (refuses solver (log (gurobiModel_ (gurobi_ c))) (Model_getVar i))
      as [[code msg] | ]; simpl.
    - rewrite set_gurobi_same. reflexivity.
    - rewrite set_gurobi_same.
      destruct (rejects solver _ _) as [[code msg] | ]; reflexivity. }
  split; [exact Hlabel |]. split; [exact Hset |]. split.
  - rewrite Hlabel.
    destruct (refuses solver _ _) as [[code msg] | ]; [discriminate |].
    unfold getSolution.
    destruct (cb_solution (cbdata_ c) (Z.to_nat i)) as [[code msg] | x]; discriminate.
  - rewrite Hset.
    destruct (refuses solver _ _) as [[code msg] | ]; [discriminate |].
    destruct (rejects solver _ _) as [[code msg] | ]; discriminate.
Qed.

Lemma callback_labels_by_model_index_witness :
  setLabel accepting 0 one two_batches_callback
  = Normal tt (set_gurobi_ (after_calls [Cb_setSolution 0%nat one]
                                        (gurobi_ two_batches_callback))
                           two_batches_callback)
  /\ var_at 0 (gurobi_ two_batches_callback)
     = Normal 1%nat (gurobi_ two_batches_callback).
Proof.
  split; [| vm_compute; reflexivity].
  destruct (@callback_labels_by_model_index accepting unit two_batches_callback 0 one)
    as (_ & Hset & _).
  - split; [intro X; discriminate X | reflexivity].
  - exact Hset.
Defined.

(** ** More on the dispatcher *)

(** X15.  A progress event is not handled atomically.  When the best
    objective can be read and the bound cannot, [callback()] throws the
    runtime error made from the solver's exception, with [objectiveBest_]
    already updated and [objectiveBound_] still the old value. *)
Theorem progress_event_half_updated
    (GRB_INFINITY : double) (D : Type) (separate heuristic : M (Callback D) unit)
    (d : Dispatch D) (best : double) (code : Z) (msg : string) :
  where_ (self d) = GRB_CB_MIP ->
  cb_info (cbdata_ (self d)) GRB_CB_MIP_OBJBST = inr best ->
  cb_info (cbdata_ (self d)) GRB_CB_MIP_OBJBND = inl (code, msg) ->
  callback GRB_INFINITY separate heuristic d
  = Throw (runtime_error (callback_error_message code msg))
          {| self := set_objectiveBest_ (translate_best GRB_INFINITY best) (self d);
             invoked := invoked d |}.
Proof.
  intros Hw Hbest Hbnd.
  unfold callback, callback_try, where_is, on_self, getDoubleInfo, translate_best.
  unfold_monad. known_where Hw. rewrite Hbest. simpl.
  destruct (eqb best GRB_INFINITY); simpl; rewrite Hbnd; reflexivity.
Qed.

Lemma progress_event_half_updated_witness :
  exists d',
    dispatch GRB_INFINITY_1e100 do_nothing do_nothing
      (unreadable_bound_event (of_Z 7)) idle_callback
    = Throw (runtime_error
               "Gurobi error 10005: Unable to retrieve while executing Gurobi callback")
            d'
    /\ objectiveBest_ (self d') = of_Z 7
    /\ objectiveBound_ (self d') = neg infinity.
Proof.
  eexists. split.
  - apply (@progress_event_half_updated GRB_INFINITY_1e100 unit do_nothing do_nothing
             (with_event (unreadable_bound_event (of_Z 7)) idle_callback)
             (of_Z 7) 10005 "Unable to retrieve"%string); reflexivity.
  - split; reflexivity.
Defined.

(** X16.  [callback()] raises nothing of its own: a sequence of dispatches
    returns whenever the two routines of the client return and the two
    progress values of every event can be read. *)
Theorem dispatcher_adds_no_failure
    (GRB_INFINITY : double) (D : Type) (separate heuristic : M (Callback D) unit)
    (evs : list SearchEvent) (d : Dispatch D) :
  (forall c, exists c', separate c = Normal tt c') ->
  (forall c, exists c', heuristic c = Normal tt c') ->
  (forall ev what, In ev evs -> exists x, cb_info (ev_data ev) what = inr x) ->
  exists d', dispatch_all GRB_INFINITY separate heuristic evs d = Normal tt d'.
Proof.
  intros Hsep Hheu Hinfo. apply dispatch_all_returns; assumption.
Qed.

Lemma dispatcher_adds_no_failure_witness :
  exists d',
    dispatch_all GRB_INFINITY_1e100 do_nothing do_nothing
      [event GRB_CB_MIP; event GRB_CB_MIPSOL; event GRB_CB_MIPNODE; event GRB_CB_MESSAGE]
      idle_callback = Normal tt d'.
Proof.
  apply (@dispatcher_adds_no_failure GRB_INFINITY_1e100 unit do_nothing do_nothing).
  - intros c. exists c. reflexivity.
  - intros c. exists c. reflexivity.
  - intros ev what [H | [H | [H | [H | []]]]]; subst ev; exists zero; reflexivity.
Defined.

(** X17.  A dispatch that has no routine to call and is not a progress
    event changes nothing of the callback object (beyond the event the
    solver has set): every other [where], and [GRB_CB_MIPNODE] with the flag
    false, is a no-op. *)
Theorem idle_dispatch_changes_nothing
    (GRB_INFINITY : double) (D : Type) (separate heuristic : M (Callback D) unit)
    (ev : SearchEvent) (d : Dispatch D) :
  ev_where ev <> GRB_CB_MIP ->
  routine_due (with_event ev d) = None ->
  dispatch GRB_INFINITY separate heuristic ev d = Normal tt (with_event ev d).
Proof.
  intros Hmip Hdue. rewrite dispatch_with_event.
  unfold routine_due in Hdue.
  assert (Hw : where_ (self (with_event ev d)) = ev_where ev) by reflexivity.
  rewrite Hw in Hdue.
  destruct (ev_where ev) eqn:Ew; try discriminate;
    try (apply callback_elsewhere; simpl; rewrite Ew; discriminate).
  - exfalso. apply Hmip. reflexivity.
  - rewrite callback_MIPNODE by (simpl; exact Ew).
    destruct (flag (with_event ev d)); [discriminate | reflexivity].
Qed.

Lemma idle_dispatch_changes_nothing_witness :
  dispatch GRB_INFINITY_1e100 failing_separation failing_separation
    (event GRB_CB_MIPNODE) idle_callback
  = Normal tt (with_event (event GRB_CB_MIPNODE) idle_callback).
Proof.
  apply (@idle_dispatch_changes_nothing GRB_INFINITY_1e100 unit
           failing_separation failing_separation (event GRB_CB_MIPNODE) idle_callback).
  - discriminate.
  - reflexivity.
Defined.

Lemma expected_routines_counts ws : forall b,
  List.length (filter is_Separation (expected_routines b ws))
  = count_where GRB_CB_MIPSOL ws
  /\ (List.length (filter is_Heuristic (expected_routines b ws))
      <= count_where GRB_CB_MIPNODE ws)%nat.
Proof.
  unfold count_where.
  induction ws as [| w ws IH]; intros b.
  - simpl. split; lia.
  - destruct w; simpl; try apply IH.
    + destruct (IH true) as [H1 H2]. split; lia.
    + destruct (IH false) as [H1 H2]. destruct b; simpl; split; lia.
Qed.

(** X18.  In a sequence of dispatches that return, the separation routine
    is called once for every event with [where == GRB_CB_MIPSOL], no more and
    no less, and the heuristic routine at most once for every event with
    [where == GRB_CB_MIPNODE]; no other event calls a routine. *)
Theorem routine_calls_counted
    (GRB_INFINITY : double) (D : Type) (separate heuristic : M (Callback D) unit)
    (evs : list SearchEvent) (d d' : Dispatch D) :
  dispatch_all GRB_INFINITY separate heuristic evs d = Normal tt d' ->
  exists calls,
    invoked d' = invoked d ++ calls
    /\ List.length (filter is_Separation calls)
       = count_where GRB_CB_MIPSOL (map ev_where evs)
    /\ (List.length (filter is_Heuristic calls)
        <= count_where GRB_CB_MIPNODE (map ev_where evs))%nat
    /\ List.length calls
       = (List.length (filter is_Separation calls)
          + List.length (filter is_Heuristic calls))%nat.
Proof.
  intros Hrun.
  destruct (dispatch_all_automaton _ _ _ _ _ Hrun) as [_ Hi].
  exists (expected_routines (flag d) (map ev_where evs)).
  split; [exact Hi |].
  destruct (expected_routines_counts (map ev_where evs) (flag d)) as [H1 H2].
  split; [exact H1 |]. split; [exact H2 |].
  generalize (expected_routines (flag d) (map ev_where evs)). intros l.
  induction l as [| r l IH]; [reflexivity |].
  destruct r; simpl; lia.
Qed.

Lemma routine_calls_counted_witness :
  exists d' calls,
    dispatch_all GRB_INFINITY_1e100 do_nothing do_nothing
      [event GRB_CB_MIPNODE; event GRB_CB_MIPSOL; event GRB_CB_MIP;
       event GRB_CB_MIPSOL; event GRB_CB_MIPNODE; event GRB_CB_MIPNODE]
      idle_callback = Normal tt d'
    /\ invoked d' = invoked idle_callback ++ calls
    /\ List.length (filter is_Separation calls) = 2%nat
    /\ (List.length (filter is_Heuristic calls) <= 3)%nat.
Proof.
  eexists.
  assert (Hrun :
    dispatch_all GRB_INFINITY_1e100 do_nothing do_nothing
      [event GRB_CB_MIPNODE; event GRB_CB_MIPSOL; event GRB_CB_MIP;
       event GRB_CB_MIPSOL; event GRB_CB_MIPNODE; event GRB_CB_MIPNODE]
      idle_callback = Normal tt _) by (vm_compute; reflexivity).
  destruct (routine_calls_counted _ _ _ _ _ Hrun) as (calls & Hi & Hs & Hh & _).
  exists calls. split; [exact Hrun |].
  split; [exact Hi |]. split; [exact Hs | exact Hh].
Defined.

(** ** The progress values over a sequence of events *)

Section ProgressValues.

Variable GRB_INFINITY : double.
Variable D : Type.
Variable separate heuristic : M (Callback D) unit.
Hypothesis separate_keeps : keeps_progress separate.
Hypothesis heuristic_keeps : keeps_progress heuristic.

Lemma dispatch_progress_step ev d d1 :
  dispatch GRB_INFINITY separate heuristic ev d = Normal tt d1 ->
  objectiveBest_ (self d1) = expected_best GRB_INFINITY (objectiveBest_ (self d)) [ev]
  /\ objectiveBound_ (self d1)
     = expected_bound GRB_INFINITY (objectiveBound_ (self d)) [ev].
Proof.
  rewrite dispatch_with_event. simpl.
  assert (Hw : where_ (self (with_event ev d)) = ev_where ev) by reflexivity.
  assert (Hc : cbdata_ (self (with_event ev d)) = ev_data ev) by reflexivity.
  assert (Hb : objectiveBest_ (self (with_event ev d)) = objectiveBest_ (self d))
    by reflexivity.
  assert (Hn : objectiveBound_ (self (with_event ev d)) = objectiveBound_ (self d))
    by reflexivity.
  revert Hw Hc Hb Hn. generalize (with_event ev d). intros d0 Hw Hc Hb Hn.
  destruct (ev_where ev) eqn:Ew.
  4: { unfold callback, callback_try, where_is, on_self, getDoubleInfo,
         translate_best, translate_bound.
       unfold_monad. rewrite <- Hc.
       destruct (cb_info (cbdata_ (self d0)) GRB_CB_MIP_OBJBST)
         as [[c1 m1] | best] eqn:Ebest;
       destruct (cb_info (cbdata_ (self d0)) GRB_CB_MIP_OBJBND)
         as [[c2 m2] | bnd] eqn:Ebnd;
       repeat (cbv beta; rewrite ?Hw, ?Ebest, ?Ebnd; simpl);
       repeat match goal with
       | |- context [if eqb ?x ?y then _ else _] =>
           destruct (eqb x y);
           repeat (cbv beta; rewrite ?Hw, ?Ebest, ?Ebnd; simpl)
       end;
       intros H; try discriminate; inversion H; simpl; split; reflexivity. }
  4: { rewrite callback_MIPSOL by assumption. unfold after_routine. simpl.
       destruct (separate (self d0)) as [[] c' | e c' | ] eqn:E; try discriminate.
       intros H; inversion H; simpl.
       destruct (separate_keeps E) as [K1 K2]. split; congruence. }
  4: { rewrite callback_MIPNODE by assumption.
       destruct (flag d0).
       - unfold after_routine. simpl.
         destruct (heuristic (self d0)) as [[] c' | e c' | ] eqn:E; try discriminate.
         intros H; inversion H; simpl.
         destruct (heuristic_keeps E) as [K1 K2]. split; congruence.
       - intros H; inversion H; subst d1. split; assumption. }
  all: rewrite callback_elsewhere by congruence;
    intros H; inversion H; subst d1; split; assumption.
Qed.

Lemma dispatch_all_progress evs : forall d d',
  dispatch_all GRB_INFINITY separate heuristic evs d = Normal tt d' ->
  objectiveBest_ (self d') = expected_best GRB_INFINITY (objectiveBest_ (self d)) evs
  /\ objectiveBound_ (self d')
     = expected_bound GRB_INFINITY (objectiveBound_ (self d)) evs.
Proof.
  induction evs as [| ev evs IH]; intros d d' H.
  - inversion H; subst. split; reflexivity.
  - simpl in H. unfold bind in H.
    destruct (dispatch GRB_INFINITY separate heuristic ev d) as [[] d1 | e d1 | ] eqn:E1;
      try discriminate.
    apply dispatch_progress_step in E1. destruct E1 as [E1 E2].
    apply IH in H. destruct H as [H1 H2].
    simpl in E1, E2. simpl. rewrite H1, H2, E1, E2. split; reflexivity.
Qed.

End ProgressValues.

(** X19.  With routines that leave the two progress values alone, after a
    sequence of dispatches that return, [objectiveBest_] and
    [objectiveBound_] are the values of the latest progress event
    ([where == GRB_CB_MIP]), translated; without any progress event they are
    what they were before, so the initial infinities on a new callback
    object. *)
Theorem latest_progress_event_wins
    (GRB_INFINITY : double) (D : Type) (separate heuristic : M (Callback D) unit)
    (evs : list SearchEvent) (d d' : Dispatch D) :
  keeps_progress separate ->
  keeps_progress heuristic ->
  dispatch_all GRB_INFINITY separate heuristic evs d = Normal tt d' ->
  objectiveBest_ (self d') = expected_best GRB_INFINITY (objectiveBest_ (self d)) evs
  /\ objectiveBound_ (self d')
     = expected_bound GRB_INFINITY (objectiveBound_ (self d)) evs.
Proof.
  intros Hs Hh Hrun.
  exact (@dispatch_all_progress GRB_INFINITY D separate heuristic Hs Hh evs d d' Hrun).
Qed.

Lemma latest_progress_event_wins_witness :
  exists d',
    dispatch_all GRB_INFINITY_1e100 do_nothing do_nothing
      [progress_event (of_Z 9) (of_Z 1); event GRB_CB_MIPSOL;
       progress_event (of_Z 7) (of_Z 3); event GRB_CB_MIPNODE]
      idle_callback = Normal tt d'
    /\ objectiveBest_ (self d') = of_Z 7
    /\ objectiveBound_ (self d') = of_Z 3.
Proof.
  eexists. split; [vm_compute; reflexivity |].
  refine (@latest_progress_event_wins GRB_INFINITY_1e100 unit do_nothing do_nothing
            [progress_event (of_Z 9) (of_Z 1); event GRB_CB_MIPSOL;
             progress_event (of_Z 7) (of_Z 3); event GRB_CB_MIPNODE]
            idle_callback _ _ _ _).
  - intros c c' H. inversion H. split; reflexivity.
  - intros c c' H. inversion H. split; reflexivity.
  - vm_compute. reflexivity.
Defined.

(** ** The message of the runtime error *)

Lemma string_of_uint_no_colon d : has_colon (NilEmpty.string_of_uint d) = false.
Proof. induction d; simpl; auto. Qed.

Lemma to_string_no_colon z : has_colon (to_string z) = false.
Proof.
  unfold to_string, NilZero.string_of_int, NilZero.string_of_uint.
  destruct (Z.to_int z) as [d | d]; destruct d; simpl;
    try reflexivity; apply string_of_uint_no_colon.
Qed.

Lemma to_string_inj z z' : to_string z = to_string z' -> z = z'.
Proof.
  unfold to_string. intros H.
  assert (Hnil : forall n, Z.to_int n <> Decimal.Pos Decimal.Nil
                           /\ Z.to_int n <> Decimal.Neg Decimal.Nil).
  { intros [| p | p]; simpl; split; try discriminate;
      intros E; inversion E as [E'];
      exact (DecimalPos.Unsigned.to_uint_nonnil p E'). }
  apply DecimalZ.to_int_inj.
  assert (Some (Z.to_int z) = Some (Z.to_int z')) as E.
  { rewrite <- (NilZero.isi (Z.to_int z)) by apply Hnil.
    rewrite <- (NilZero.isi (Z.to_int z')) by apply Hnil.
    rewrite H. reflexivity. }
  inversion E. reflexivity.
Qed.

Lemma split_at_colon s1 : forall s2 r1 r2,
  has_colon s1 = false ->
  has_colon s2 = false ->
  (s1 ++ String colon r1 = s2 ++ String colon r2)%string ->
  s1 = s2 /\ r1 = r2.
Proof.
  induction s1 as [| a s1 IH]; intros s2 r1 r2 H1 H2 E.
  - destruct s2 as [| b s2]; simpl in E.
    + inversion E. split; reflexivity.
    + inversion E; subst b. simpl in H2. discriminate.
  - destruct s2 as [| b s2]; simpl in E.
    + inversion E; subst a. simpl in H1. discriminate.
    + inversion E; subst b. simpl in H1, H2.
      apply orb_false_elim in H1. apply orb_false_elim in H2.
      destruct (IH s2 r1 r2) as [-> ->]; tauto.
Qed.

Lemma string_length_append s1 s2 :
  String.length (s1 ++ s2)%string = (String.length s1 + String.length s2)%nat.
Proof. induction s1 as [| a s1 IH]; simpl; [reflexivity | rewrite IH; reflexivity]. Qed.

Lemma append_inv_tail s1 : forall s2 t,
  (s1 ++ t = s2 ++ t)%string -> s1 = s2.
Proof.
  induction s1 as [| a s1 IH]; intros s2 t E.
  - destruct s2 as [| b s2]; [reflexivity |].
    apply (f_equal String.length) in E. simpl in E.
    rewrite string_length_append in E. lia.
  - destruct s2 as [| b s2].
    + apply (f_equal String.length) in E. simpl in E.
      rewrite string_length_append in E. lia.
    + simpl in E. inversion E. f_equal. eapply IH. eassumption.
Qed.

(** X20.  The message of the runtime error thrown by [callback()]
    determines the solver's error code and message: two solver exceptions
    with the same resulting message have the same code and the same
    message. *)
Theorem callback_error_message_injective
    (code code' : Z) (msg msg' : string) :
  callback_error_message code msg = callback_error_message code' msg' ->
  code = code' /\ msg = msg'.
Proof.
  unfold callback_error_message. intros E.
  simpl in E. inversion E as [E']. clear E.
  change (to_string code
            ++ String colon (String space (msg ++ " while executing Gurobi callback"))
          = to_string code'
            ++ String colon (String space (msg' ++ " while executing Gurobi callback")))%string
    in E'.
  apply split_at_colon in E'; try apply to_string_no_colon.
  destruct E' as [Ec Em]. split.
  - apply to_string_inj. exact Ec.
  - inversion Em as [Em']. eapply append_inv_tail. exact Em'.
Qed.

Lemma callback_error_message_injective_witness :
  10005 = 10005 /\ "Unable to retrieve"%string = "Unable to retrieve"%string.
Proof.
  apply (@callback_error_message_injective 10005 10005
           "Unable to retrieve" "Unable to retrieve").
  reflexivity.
Defined.

(** ** A rejected pre-solver setting *)

(** X21.  When the solver rejects the [PreDual] write of [setPreSolver]
    (pre-solver choice other than [PRE_SOLVER_NONE]), the solver's exception
    leaves and the pass count is not written: the only call issued is the
    rejected [PreDual] write. *)
Theorem setPreSolver_rejected
    (solver : Solver) (preSolver : PreSolver) (passes : Z) (g : Gurobi)
    (v code : Z) (msg : string) :
  PreDual_value preSolver = Some v ->
  rejects solver (session_log g) (Env_set GRB_IntParam_PreDual v) = Some (code, msg) ->
  setPreSolver solver preSolver passes g
  = Throw (GRBException code msg) (after_calls [Env_set GRB_IntParam_PreDual v] g).
Proof.
  intros Hv Hrej.
  destruct preSolver; simpl in Hv; inversion Hv; subst v;
    unfold setPreSolver, env_set, on_model, issue, after_calls, session_log in *;
    unfold_monad; rewrite Hrej; reflexivity.
Qed.

Lemma setPreSolver_rejected_witness :
  setPreSolver rejecting_PreDual PRE_SOLVER_DUAL 3 two_variables
  = Throw (GRBException 10008 "Unable to set parameter")
          (after_calls [Env_set GRB_IntParam_PreDual 1] two_variables).
Proof.
  apply (@setPreSolver_rejected rejecting_PreDual PRE_SOLVER_DUAL 3 two_variables
           1 10008 "Unable to set parameter"%string); reflexivity.
Defined.
